(** * deer/train.py: the training script of the parallel recurrence solver

    A shallow embedding of [deer/train.py] (rollout, compute_metrics,
    loss_fn, update_step, prep_batch, main) and of the solver contract it
    relies on, followed by the properties of the specification.

    Conventions.
    - Floating point scalars are an abstract type [R] carrying the few
      operations the script uses (class [Scalar]); arrays are nested lists
      over [R], the outermost list being axis 0.
    - Python exceptions are values of [exn]; a function that may raise
      returns a [result].
    - Functions imported from other packages ([seq1d], optax, jax, flax,
      the data module) are members of the classes [Lib] and [Runtime]; an
      exception raised inside one of them is [Collaborator name], so that
      the exceptions raised by the script itself stay recognisable. *)

From Stdlib Require Import String List ZArith QArith Qminmax Lia Bool Arith.
Import ListNotations.
Close Scope Q_scope.
Open Scope string_scope.
Open Scope nat_scope.

(** ** Exceptions *)

Inductive exn : Type :=
| NotImplementedError
| IndexError
| ValueError
| Collaborator (name : string).

Inductive result (A : Type) : Type :=
| Ok (a : A)
| Raise (e : exn).

Arguments Ok {A} a.
Arguments Raise {A} e.

Definition bind {A B : Type} (c : result A) (k : A -> result B) : result B :=
  match c with
  | Ok a => k a
  | Raise e => Raise e
  end.

Notation "x <- c ;; k" := (bind c (fun x => k))
  (at level 61, c at next level, right associativity).
Notation "' pat <- c ;; k" := (bind c (fun x => match x with pat => k end))
  (at level 61, pat pattern, c at next level, right associativity).

(** The result of a call into another package: [None] is an exception
    raised there. *)
Definition called {A : Type} (name : string) (r : option A) : result A :=
  match r with
  | Some a => Ok a
  | None => Raise (Collaborator name)
  end.

Fixpoint mapM {A B : Type} (f : A -> result B) (l : list A) : result (list B) :=
  match l with
  | [] => Ok []
  | a :: l' => b <- f a ;; bs <- mapM f l' ;; Ok (b :: bs)
  end.

(** ** Arrays *)

Class Scalar (R : Type) : Type := {
  R0 : R;
  R1 : R;
  Rltb : R -> R -> bool;
  jnp_mean : list R -> R
}.

Definition Vec (R : Type) : Type := list R.
Definition Traj (R : Type) : Type := list (Vec R).

Section Arrays.
Context {R : Type} `{Scalar R}.

(** [jnp.zeros((n,))], [jnp.zeros((m, n))], [jnp.zeros((b, m, n))]. *)
Definition zeros1 (n : nat) : Vec R := repeat R0 n.
Definition zeros2 (m n : nat) : list (Vec R) := repeat (zeros1 n) m.
Definition zeros3 (b m n : nat) : list (Traj R) := repeat (zeros2 m n) b.

(** [y[-1, :]]: the index -1 is normalised to [len(y) - 1]; on an empty
    axis it is out of bounds. *)
Definition index_last {A : Type} (y : list A) : result A :=
  match y with
  | [] => Raise IndexError
  | _ :: _ =>
      match nth_error y (length y - 1) with
      | Some a => Ok a
      | None => Raise IndexError
      end
  end.

(** [jnp.argmax(v)]: the first index of a largest entry. *)
Fixpoint argmax_from (best : R) (bi i : nat) (v : list R) : nat :=
  match v with
  | [] => bi
  | a :: v' =>
      if Rltb best a then argmax_from a i (S i) v'
      else argmax_from best bi (S i) v'
  end.

Definition argmax (v : Vec R) : result Z :=
  match v with
  | [] => Raise ValueError
  | a :: v' => Ok (Z.of_nat (argmax_from a 0 1 v'))
  end.

(** The comparison of scalars is a strict weak order, as [<] is on floats
    that are not NaN. *)
Definition strict_weak_order : Prop :=
  (forall a, Rltb a a = false) /\
  (forall a b c, Rltb a b = true -> Rltb b c = true -> Rltb a c = true) /\
  (forall a b c, Rltb a b = true -> Rltb a c = true \/ Rltb c b = true).

(** [a == b] on one-dimensional integer arrays, with numpy broadcasting. *)
Definition jnp_equal (a b : list Z) : result (list bool) :=
  if length a =? length b then Ok (map (fun ab => Z.eqb (fst ab) (snd ab)) (combine a b))
  else match a, b with
       | [a0], _ => Ok (map (fun bi => Z.eqb a0 bi) b)
       | _, [b0] => Ok (map (fun ai => Z.eqb ai b0) a)
       | _, _ => Raise (Collaborator "jnp.equal")
       end.

(** A boolean array read as numbers, as [jnp.mean] does. *)
Definition of_bool (b : bool) : R := if b then R1 else R0.

(** An array of shape (nseq, nstates). *)
Definition has_shape (T : Traj R) (nseq nstates : nat) : Prop :=
  length T = nseq /\ Forall (fun v => length v = nstates) T.

End Arrays.

(** ** Collaborators *)

(** [flax.linen] modules, seen through [init] and [apply]. The recurrent
    cell's [apply] returns the pair (new carry, output). *)
Record RNNCell (R P : Type) : Type := {
  model_init : Z -> P;
  model_apply : P -> Vec R -> Vec R -> Vec R * Vec R
}.

Record Readout (R M : Type) : Type := {
  mlp_init : Z -> M;
  mlp_apply : M -> Vec R -> Vec R
}.

Arguments model_init {R P} _ _.
Arguments model_apply {R P} _ _ _ _.
Arguments mlp_init {R M} _ _.
Arguments mlp_apply {R M} _ _ _.

(** [optax.GradientTransformation]. *)
Record GradientTransformation (C O : Type) : Type := {
  opt_init : C -> O;
  opt_update : C -> O -> C * O
}.

Arguments opt_init {C O} _ _.
Arguments opt_update {C O} _ _ _.

(** The dictionary [{"params": ..., "mlp_params": ...}]. *)
Record CombinedParams (P M : Type) : Type := {
  cp_params : P;
  cp_mlp_params : M
}.

Arguments Build_CombinedParams {P M} _ _.
Arguments cp_params {P M} _.
Arguments cp_mlp_params {P M} _.

(** What the script imports from [deer.seq1d], [optax] and [jax]. *)
Class Lib (R P M : Type) : Type := {
  (** [seq1d(func, y0, xinp, params, yinit_guess)] *)
  seq1d : (Vec R -> Vec R -> P -> Vec R) -> Vec R -> list (Vec R) -> P ->
          option (Traj R) -> option (Traj R);
  (** [optax.softmax_cross_entropy_with_integer_labels(logits, labels)] *)
  softmax_cross_entropy_with_integer_labels :
    list (Vec R) -> list Z -> option (list R);
  (** the addition of two parameter trees, used by [optax.apply_updates] *)
  tree_add_params : P -> P -> P;
  tree_add_mlp_params : M -> M -> M;
  (** reverse-mode differentiation of the first output of a function with
      an auxiliary output, with respect to its two parameter arguments *)
  jax_grad : forall Aux : Type, (P -> M -> result (R * Aux)) -> P -> M -> P * M
}.

(** [optax.apply_updates(params, updates)]. *)
Definition apply_updates {R P M : Type} `{Lib R P M}
  (c u : CombinedParams P M) : CombinedParams P M :=
  {| cp_params := tree_add_params (cp_params c) (cp_params u);
     cp_mlp_params := tree_add_mlp_params (cp_mlp_params c) (cp_mlp_params u) |}.

(** [jax.value_and_grad(f, argnums=(1, 3), has_aux=True)]: the value (with
    its auxiliary output) and the gradient of the value with respect to the
    two selected arguments; an exception of [f] propagates. *)
Definition value_and_grad {R P M : Type} `{Lib R P M} {Aux : Type}
  (f : P -> M -> result (R * Aux)) (p : P) (m : M)
  : result ((R * Aux) * (P * M)) :=
  va <- f p m ;;
  Ok (va, jax_grad Aux f p m).

(** [jax.vmap(f, in_axes=(None, None, None, None, 0, 0, 0))]: [f] is
    applied along axis 0 of its last three arguments, whose sizes along
    that axis must agree; an absent guess has no axis. *)
Definition vmap_axes_0_0_0 {A B C D : Type} (f : A -> B -> option C -> result D)
  (ys : list A) (xs : list B) (gs : option (list C)) : result (list D) :=
  if negb (length ys =? length xs) then Raise ValueError
  else match gs with
       | None => mapM (fun yx => f (fst yx) (snd yx) None) (combine ys xs)
       | Some gl =>
           if negb (length gl =? length ys) then Raise ValueError
           else mapM (fun yxg => f (fst (fst yxg)) (snd (fst yxg)) (Some (snd yxg)))
                     (combine (combine ys xs) gl)
       end.

(** ** train.py *)

Section Train.
Context {R P M O : Type} `{Scalar R} `{Lib R P M}.

(** The defaults of [rollout]'s keyword parameters. *)
Definition default_method : string := "deer_rnn".
Definition default_nclasses : Z := 10%Z.

(** The function [model_func] nested in [rollout], closed over [model]:
    the first component of what the cell returns. *)
Definition model_func (model : RNNCell R P)
  (carry : Vec R) (inputs : Vec R) (params : P) : Vec R :=
  fst (model_apply model params carry inputs).

Definition rollout (model : RNNCell R P) (params : P)
  (mlp : Readout R M) (mlp_params : M)
  (y0 : Vec R) (inputs : list (Vec R)) (yinit_guess : option (Traj R))
  (method : string) (nclasses : Z) : result (Vec R * Traj R) :=
  if String.eqb method "deer_rnn" then
    y <- called "seq1d" (seq1d (model_func model) y0 inputs params yinit_guess) ;;
    y_last <- index_last y ;;
    Ok (mlp_apply mlp mlp_params y_last, y)
  else
    Raise NotImplementedError.

(** The dictionary [{'loss': ..., 'accuracy': ...}]. *)
Record Metrics : Type := {
  loss : R;
  accuracy : R
}.

Definition compute_metrics (logits : list (Vec R)) (labels : list Z)
  : result Metrics :=
  losses <- called "optax" (softmax_cross_entropy_with_integer_labels logits labels) ;;
  let loss := jnp_mean losses in
  predicted <- mapM argmax logits ;;
  hits <- jnp_equal predicted labels ;;
  let accuracy := jnp_mean (map of_bool hits) in
  Ok {| loss := loss; accuracy := accuracy |}.

(** The vmapped [rollout] of [loss_fn]: seven positional arguments, so
    [method] and [nclasses] take their defaults; the tuple of stacked
    outputs is the pair of lists. *)
Definition rollout_batch (model : RNNCell R P) (params : P)
  (mlp : Readout R M) (mlp_params : M)
  (y0 : list (Vec R)) (x : list (list (Vec R)))
  (yinit_guess : option (list (Traj R)))
  : result (list (Vec R) * list (Traj R)) :=
  rs <- vmap_axes_0_0_0
          (fun y0_k x_k guess_k =>
             rollout model params mlp mlp_params y0_k x_k guess_k
                     default_method default_nclasses)
          y0 x yinit_guess ;;
  Ok (List.split rs).

Definition loss_fn (model : RNNCell R P) (params : P)
  (mlp : Readout R M) (mlp_params : M)
  (y0 : list (Vec R)) (batch : list (list (Vec R)) * list Z)
  (all_yinit_guess : option (list (Traj R))) (method : string)
  : result (R * (R * list (Traj R))) :=
  let '(x, y) := batch in
  let yinit_guess := all_yinit_guess in
  '(ypred, yinit_guess) <- rollout_batch model params mlp mlp_params y0 x yinit_guess ;;
  metrics <- compute_metrics ypred y ;;
  let '(loss, accuracy) := (loss metrics, accuracy metrics) in
  Ok (loss, (accuracy, yinit_guess)).

(** The exceptions of [update_step] are those of its forward pass; the
    backward pass and the optimizer are taken to return. *)
Definition update_step (model : RNNCell R P) (mlp : Readout R M)
  (optimizer : GradientTransformation (CombinedParams P M) O)
  (combined_params : CombinedParams P M) (opt_state : O)
  (batch : list (list (Vec R)) * list Z)
  (y0 : list (Vec R)) (all_yinit_guess : list (Traj R)) (method : string)
  : result (CombinedParams P M * O * R * R * list (Traj R)) :=
  '((loss, (accuracy, yinit_guess)), grad) <-
     value_and_grad
       (fun params mlp_params =>
          loss_fn model params mlp mlp_params y0 batch (Some all_yinit_guess) method)
       (cp_params combined_params) (cp_mlp_params combined_params) ;;
  let '(updates, opt_state) :=
    opt_update optimizer
      {| cp_params := fst grad; cp_mlp_params := snd grad |} opt_state in
  let combined_params := apply_updates combined_params updates in
  Ok (combined_params, opt_state, loss, accuracy, yinit_guess).

(** [prep_batch]: the batch is a pair, so [assert len(batch) == 2] holds by
    typing; [jnp.asarray(t.numpy())] keeps the values. *)
Definition prep_batch (batch : list (list (Vec R)) * list Z)
  : list (list (Vec R)) * list Z :=
  let '(x, y) := batch in
  (x, y).

End Train.

(** ** main *)

(** The data module: the batches of one epoch, in order, and the hook
    applied to each batch with its index. *)
Record DataModule (R Raw : Type) : Type := {
  train_dataloader : nat -> list Raw;
  on_before_batch_transfer : Raw -> nat -> list (list (Vec R)) * list Z
}.

Arguments train_dataloader {R Raw} _ _.
Arguments on_before_batch_transfer {R Raw} _ _ _.

(** The constructors called by [main]. *)
Class Runtime (R P M O Raw : Type) : Type := {
  GRUCell : nat -> RNNCell R P;
  Dense : nat -> Readout R M;
  adam : R -> GradientTransformation (CombinedParams P M) O;
  CIFAR10DataModule : nat -> DataModule R Raw
}.

(** [class MLP(nn.Module)]: one [Dense(ndim)] layer. *)
Definition MLP {R P M O Raw : Type} `{Runtime R P M O Raw} (ndim : nat)
  : Readout R M :=
  {| mlp_init := mlp_init (Dense ndim);
     mlp_apply := fun mlp_params x => mlp_apply (Dense ndim) mlp_params x |}.

(** The parsed command line. Sizes are naturals: a negative size is
    rejected by the array constructors before the loop is reached. *)
Record Args (R : Type) : Type := {
  args_seed : Z;
  args_lr : R;
  args_nepochs : Z;
  args_batch_size : nat;
  args_version : Z;
  args_method : string;
  args_nstates : nat;
  args_nsequence : nat;
  args_nclass : nat
}.

Arguments args_seed {R} _.
Arguments args_lr {R} _.
Arguments args_nepochs {R} _.
Arguments args_batch_size {R} _.
Arguments args_version {R} _.
Arguments args_method {R} _.
Arguments args_nstates {R} _.
Arguments args_nsequence {R} _.
Arguments args_nclass {R} _.

(** The variables of [main] that the training loop reads or assigns. *)
Record Locals (R P M O : Type) : Type := {
  combined_params : CombinedParams P M;
  opt_state : O;
  yinit_guess : list (Traj R);
  y0 : list (Vec R);
  step : nat;
  summary_writer : list (string * R * nat)
}.

Arguments Build_Locals {R P M O} _ _ _ _ _ _.
Arguments combined_params {R P M O} _.
Arguments opt_state {R P M O} _.
Arguments yinit_guess {R P M O} _.
Arguments y0 {R P M O} _.
Arguments step {R P M O} _.
Arguments summary_writer {R P M O} _.

Section Main.
Context {R P M O Raw : Type} `{Scalar R} `{Lib R P M} `{Runtime R P M O Raw}.

(** The body of the inner [for] loop. *)
Definition loop_body (model : RNNCell R P) (mlp : Readout R M)
  (optimizer : GradientTransformation (CombinedParams P M) O)
  (dm : DataModule R Raw)
  (s : Locals R P M O) (i : nat) (batch : Raw) : result (Locals R P M O) :=
  let batch := on_before_batch_transfer dm batch i in
  let batch := prep_batch batch in
  '(combined_params', opt_state', loss, accuracy, yinit_guess') <-
     update_step model mlp optimizer (combined_params s) (opt_state s) batch
                 (y0 s) (yinit_guess s) default_method ;;
  Ok {| combined_params := combined_params';
        opt_state := opt_state';
        yinit_guess := yinit_guess';
        y0 := y0 s;
        step := step s + 1;
        summary_writer := summary_writer s ++ [("train_loss", loss, step s)] |}.

(** [for i, batch in enumerate(dm.train_dataloader())] *)
Fixpoint epoch_loop (model : RNNCell R P) (mlp : Readout R M)
  (optimizer : GradientTransformation (CombinedParams P M) O)
  (dm : DataModule R Raw)
  (s : Locals R P M O) (i : nat) (batches : list Raw)
  : result (Locals R P M O) :=
  match batches with
  | [] => Ok s
  | batch :: rest =>
      s' <- loop_body model mlp optimizer dm s i batch ;;
      epoch_loop model mlp optimizer dm s' (S i) rest
  end.

(** [for epoch in range(nepochs)], from epoch number [epoch] on. *)
Fixpoint training_loop (model : RNNCell R P) (mlp : Readout R M)
  (optimizer : GradientTransformation (CombinedParams P M) O)
  (dm : DataModule R Raw)
  (s : Locals R P M O) (epoch : nat) (nepochs : nat)
  : result (Locals R P M O) :=
  match nepochs with
  | 0 => Ok s
  | S n =>
      s' <- epoch_loop model mlp optimizer dm s 0 (train_dataloader dm epoch) ;;
      training_loop model mlp optimizer dm s' (S epoch) n
  end.

(** The state of [main] when the training loop is entered. The calls made
    before the loop (the log directory, the initialisation of the modules,
    the summary writer, the data module's setup) are taken to have
    returned: an exception raised by one of them ends the program before
    any of what follows happens. *)
Definition main_setup (args : Args R) : Locals R P M O :=
  let nstates := args_nstates args in
  let nsequence := args_nsequence args in
  let nclass := args_nclass args in
  let model := GRUCell nstates in
  let params := model_init model (args_seed args) in
  let mlp := MLP nclass in
  let mlp_params := mlp_init mlp (args_seed args) in
  let optimizer := adam (args_lr args) in
  let combined_params := {| cp_params := params; cp_mlp_params := mlp_params |} in
  {| combined_params := combined_params;
     opt_state := opt_init optimizer combined_params;
     yinit_guess := zeros3 (args_batch_size args) nsequence nstates;
     y0 := zeros2 (args_batch_size args) nstates;
     step := 0;
     summary_writer := [] |}.

Definition main (args : Args R) : result (Locals R P M O) :=
  let method := args_method args in
  let model := GRUCell (args_nstates args) in
  let mlp := MLP (args_nclass args) in
  let optimizer := adam (args_lr args) in
  let dm := CIFAR10DataModule (args_batch_size args) in
  training_loop model mlp optimizer dm (main_setup args) 0
                (Z.to_nat (args_nepochs args)).

(** The states of the training loop of [main args]: the state at entry,
    and the state after one more iteration from such a state. *)
Inductive reachable (args : Args R) : Locals R P M O -> Prop :=
| reachable_setup : reachable args (main_setup args)
| reachable_iteration (s s' : Locals R P M O) (i : nat) (batch : Raw) :
    reachable args s ->
    loop_body (GRUCell (args_nstates args)) (MLP (args_nclass args))
              (adam (args_lr args)) (CIFAR10DataModule (args_batch_size args))
              s i batch = Ok s' ->
    reachable args s'.

End Main.

(** The default of [--method] in the argument parser. *)
Definition parser_default_method : string := "deer".

(** The command line with another value of [--method]. *)
Definition with_method {R : Type} (args : Args R) (method : string) : Args R :=
  {| args_seed := args_seed args;
     args_lr := args_lr args;
     args_nepochs := args_nepochs args;
     args_batch_size := args_batch_size args;
     args_version := args_version args;
     args_method := method;
     args_nstates := args_nstates args;
     args_nsequence := args_nsequence args;
     args_nclass := args_nclass args |}.

(** ** The parallel recurrence solver

    [deer.seq1d] is not part of the sources at hand. The solver below
    follows section 4.1 of the specification; it is the [seq1d] of the
    small instance on which the properties are evaluated. *)

Module Solver.

Section Solve.
Variables State Input Params : Type.

(** The local approximation of the step function around a guessed
    previous state: [local_model g x p] stands for [fun s => step s x p]
    near [g]. *)
Variable local_model : State -> Input -> Params -> State -> State.

(** The magnitude of the difference of two states. *)
Variable dist : State -> State -> Q.

Variable zero_state : State.

(** Modelled from the spec: the body of [deer.seq1d] is missing. One
    refinement: approximate the recurrence around the current guess and
    solve the approximated system for the whole trajectory; position [i]
    uses the model around the guess at [i-1] (the initial state at 0). *)
Fixpoint sweep (params : Params) (prev_new prev_guess : State)
  (inputs : list Input) (guess : list State) : list State :=
  match inputs, guess with
  | x :: inputs', g :: guess' =>
      let y := local_model prev_guess x params prev_new in
      y :: sweep params y g inputs' guess'
  | _, _ => []
  end.

Definition refine (params : Params) (initial_state : State)
  (inputs : list Input) (guess : list State) : list State :=
  sweep params initial_state initial_state inputs guess.

(** The magnitude of an update: the largest change of a position. *)
Fixpoint magnitude (a b : list State) : Q :=
  match a, b with
  | x :: a', y :: b' => Qmax (dist x y) (magnitude a' b')
  | _, _ => 0%Q
  end.

Definition Qltb (a b : Q) : bool := negb (Qle_bool b a).

(** What a run of the solver reports: the trajectory, the number of
    refinements made, and whether the last update fell below the
    threshold. *)
Record Outcome : Type := {
  trajectory : list State;
  iterations : nat;
  converged : bool
}.

(** Modelled from the spec: the loop of [deer.seq1d] is missing. Refine
    until the update's magnitude falls below [tol] or [max_iter]
    refinements were made; then the best available estimate is returned. *)
Fixpoint iterate (params : Params) (max_iter : nat) (tol : Q)
  (initial_state : State) (inputs : list Input) (guess : list State)
  : Outcome :=
  match max_iter with
  | 0 => {| trajectory := guess; iterations := 0; converged := false |}
  | S n =>
      let next := refine params initial_state inputs guess in
      if Qltb (magnitude next guess) tol
      then {| trajectory := next; iterations := 1; converged := true |}
      else
        let o := iterate params n tol initial_state inputs next in
        {| trajectory := trajectory o;
           iterations := S (iterations o);
           converged := converged o |}
  end.

(** Modelled from the spec: [deer.seq1d] itself is missing. An absent
    guess is the zero trajectory (cold start); a guess whose length is not
    that of the inputs is rejected before any iteration. *)
Definition solve (max_iter : nat) (tol : Q)
  (initial_state : State) (inputs : list Input) (params : Params)
  (initial_guess : option (list State)) : option Outcome :=
  let guess := match initial_guess with
               | Some g => g
               | None => repeat zero_state (length inputs)
               end in
  if length guess =? length inputs
  then Some (iterate params max_iter tol initial_state inputs guess)
  else None.

End Solve.

Arguments trajectory {State} _.
Arguments iterations {State} _.
Arguments converged {State} _.

End Solver.

(** ** A small instance

    Integer scalars, one weight per module, the solver above with the
    frozen model as [seq1d], and a data set of two examples served one
    per batch. The properties below are evaluated on it. *)

Module Toy.

Definition Zsum (l : list Z) : Z := fold_right Z.add 0%Z l.

#[export] Instance Z_scalar : Scalar Z := {
  R0 := 0%Z;
  R1 := 1%Z;
  Rltb := Z.ltb;
  jnp_mean := fun l => (Zsum l / Z.of_nat (length l))%Z
}.

Definition vec_dist (a b : Vec Z) : Q :=
  inject_Z (Zsum (map (fun ab => Z.abs (fst ab - snd ab)) (combine a b))).

Definition toy_seq1d (func : Vec Z -> Vec Z -> Z -> Vec Z) (y0 : Vec Z)
  (xinp : list (Vec Z)) (params : Z) (yinit_guess : option (Traj Z))
  : option (Traj Z) :=
  option_map Solver.trajectory
    (Solver.solve (Vec Z) (Vec Z) Z (fun g x p _ => func g x p) vec_dist
                  (map (fun _ => 0%Z) y0) 100 0%Q y0 xinp params yinit_guess).

Definition toy_xent (logits : list (Vec Z)) (labels : list Z)
  : option (list Z) :=
  if length logits =? length labels
  then Some (map (fun ly => (Zsum (fst ly) - nth (Z.to_nat (snd ly)) (fst ly) 0)%Z)
                 (combine logits labels))
  else None.

Definition value_of {Aux : Type} (r : result (Z * Aux)) : Z :=
  match r with
  | Ok (v, _) => v
  | Raise _ => 0%Z
  end.

Definition toy_grad (Aux : Type) (f : Z -> Z -> result (Z * Aux)) (p m : Z)
  : Z * Z :=
  ((value_of (f (p + 1) m) - value_of (f p m))%Z,
   (value_of (f p (m + 1)) - value_of (f p m))%Z).

#[export] Instance toy_lib : Lib Z Z Z := {
  seq1d := toy_seq1d;
  softmax_cross_entropy_with_integer_labels := toy_xent;
  tree_add_params := Z.add;
  tree_add_mlp_params := Z.add;
  jax_grad := toy_grad
}.

Definition toy_cell (nstates : nat) : RNNCell Z Z :=
  {| model_init := fun seed => (seed + 2)%Z;
     model_apply := fun p carry x =>
       let h := map (fun c => (p * c + Zsum x)%Z) carry in (h, h) |}.

Definition toy_dense (ndim : nat) : Readout Z Z :=
  {| mlp_init := fun seed => (seed + 1)%Z;
     mlp_apply := fun m v =>
       map (fun j => (m * Z.of_nat j * Zsum v)%Z) (seq 0 ndim) |}.

Definition toy_adam (lr : Z) : GradientTransformation (CombinedParams Z Z) nat :=
  {| opt_init := fun _ => 0;
     opt_update := fun g count =>
       ({| cp_params := (- lr * cp_params g)%Z;
           cp_mlp_params := (- lr * cp_mlp_params g)%Z |}, S count) |}.

(** Two examples, [A] then [B], one per batch, the same order in every
    epoch. *)
Definition example_A : list (Vec Z) * Z := ([[1%Z]; [2%Z]], 1%Z).
Definition example_B : list (Vec Z) * Z := ([[5%Z]; [7%Z]], 0%Z).

Definition toy_data (batch_size : nat)
  : DataModule Z (list (list (Vec Z)) * list Z) :=
  {| train_dataloader := fun _ =>
       [([fst example_A], [snd example_A]); ([fst example_B], [snd example_B])];
     on_before_batch_transfer := fun batch _ => batch |}.

#[export] Instance toy_runtime
  : Runtime Z Z Z nat (list (list (Vec Z)) * list Z) := {
  GRUCell := toy_cell;
  Dense := toy_dense;
  adam := toy_adam;
  CIFAR10DataModule := toy_data
}.

Definition toy_args (method : string) : Args Z :=
  {| args_seed := 0%Z;
     args_lr := 1%Z;
     args_nepochs := 1%Z;
     args_batch_size := 1;
     args_version := 0%Z;
     args_method := method;
     args_nstates := 2;
     args_nsequence := 2;
     args_nclass := 3 |}.

Definition toy_main (method : string) : result (Locals Z Z Z nat) :=
  main (toy_args method).

(** One batch holding both examples, with zero initial states and a cold
    warm start. *)
Definition toy_cp : CombinedParams Z Z :=
  {| cp_params := 2%Z; cp_mlp_params := 1%Z |}.
Definition toy_x : list (list (Vec Z)) := [fst example_A; fst example_B].
Definition toy_labels : list Z := [snd example_A; snd example_B].
Definition toy_y0 : list (Vec Z) := zeros2 2 2.
Definition toy_guesses : list (Traj Z) := zeros3 2 2 2.

(** The batches of the two examples, the state of the run after the first
    one and after both, and a command line asking for no epoch. *)
Definition batch_A : list (list (Vec Z)) * list Z :=
  ([fst example_A], [snd example_A]).
Definition batch_B : list (list (Vec Z)) * list Z :=
  ([fst example_B], [snd example_B]).

Definition toy_state_1 : Locals Z Z Z nat :=
  {| combined_params := {| cp_params := (-2)%Z; cp_mlp_params := (-15)%Z |};
     opt_state := 1;
     yinit_guess := [[[1; 1]; [4; 4]]]%Z;
     y0 := [[0; 0]]%Z;
     step := 1;
     summary_writer := [("train_loss", 16%Z, 0)] |}.

Definition toy_state_2 : Locals Z Z Z nat :=
  {| combined_params := {| cp_params := 448%Z; cp_mlp_params := 3%Z |};
     opt_state := 2;
     yinit_guess := [[[5; 5]; [-3; -3]]]%Z;
     y0 := [[0; 0]]%Z;
     step := 2;
     summary_writer := [("train_loss", 16%Z, 0); ("train_loss", 270%Z, 1)] |}.

Definition toy_args_no_epoch : Args Z :=
  {| args_seed := 0%Z;
     args_lr := 1%Z;
     args_nepochs := (-1)%Z;
     args_batch_size := 1;
     args_version := 0%Z;
     args_method := "deer";
     args_nstates := 2;
     args_nsequence := 2;
     args_nclass := 3 |}.

End Toy.

(** * Properties *)

(** ** Exceptions and lists *)

Lemma bind_Ok {A B : Type} (c : result A) (k : A -> result B) (b : B) :
  bind c k = Ok b <-> exists a, c = Ok a /\ k a = Ok b.
Proof.
  destruct c as [a|e]; simpl; split.
  - intros Hk. exists a. split; [reflexivity | exact Hk].
  - intros [a' [Ha Hk]]. injection Ha as ->. exact Hk.
  - discriminate.
  - intros [a' [Ha _]]. discriminate.
Qed.

Lemma bind_Raise {A B : Type} (c : result A) (k : A -> result B) (e : exn) :
  bind c k = Raise e ->
  c = Raise e \/ exists a, c = Ok a /\ k a = Raise e.
Proof.
  destruct c as [a|e']; simpl; intros Hk.
  - right. exists a. split; [reflexivity | exact Hk].
  - left. injection Hk as ->. reflexivity.
Qed.

Lemma called_Ok {A : Type} (name : string) (r : option A) (a : A) :
  called name r = Ok a <-> r = Some a.
Proof.
  destruct r as [a'|]; simpl; split; intros Heq;
    try discriminate; injection Heq as ->; reflexivity.
Qed.

Lemma index_last_Ok {A : Type} (y : list A) (a : A) :
  index_last y = Ok a <-> 0 < length y /\ nth_error y (length y - 1) = Some a.
Proof.
  unfold index_last. destruct y as [|b y'].
  - simpl. split; [discriminate | intros [Hlt _]; lia].
  - destruct (nth_error (b :: y') (length (b :: y') - 1)) as [c|]; split.
    + intros Heq. injection Heq as ->. split; [simpl; lia | reflexivity].
    + intros [_ Heq]. injection Heq as ->. reflexivity.
    + discriminate.
    + intros [_ Heq]. discriminate.
Qed.

Lemma split_length {A B : Type} (l : list (A * B)) :
  length (fst (List.split l)) = length l /\ length (snd (List.split l)) = length l.
Proof.
  induction l as [|[a b] l IH]; simpl; [split; reflexivity|].
  destruct (List.split l) as [la lb]. simpl in *. destruct IH as [-> ->].
  split; reflexivity.
Qed.

Lemma split_nth_error {A B : Type} (l : list (A * B)) (k : nat) :
  nth_error (fst (List.split l)) k = option_map fst (nth_error l k) /\
  nth_error (snd (List.split l)) k = option_map snd (nth_error l k).
Proof.
  revert k. induction l as [|[a b] l IH]; intros k.
  - destruct k; split; reflexivity.
  - simpl. destruct (List.split l) as [la lb]. destruct k as [|k].
    + split; reflexivity.
    + simpl. exact (IH k).
Qed.

Lemma combine_nth_error {A B : Type} (la : list A) (lb : list B) (k : nat)
  (a : A) (b : B) :
  nth_error la k = Some a -> nth_error lb k = Some b ->
  nth_error (combine la lb) k = Some (a, b).
Proof.
  revert lb k. induction la as [|a' la IH]; intros lb k Ha Hb.
  - destruct k; discriminate.
  - destruct lb as [|b' lb]; [destruct k; discriminate|].
    destruct k as [|k]; simpl in *.
    + injection Ha as ->. injection Hb as ->. reflexivity.
    + apply IH; assumption.
Qed.

(** [mapM] over three zipped axes, described position by position. *)
Lemma mapM_zip3 {A B C D : Type} (f : A -> B -> C -> result D)
  (ys : list A) (xs : list B) (gs : list C) (rs : list D) :
  length xs = length ys -> length gs = length ys ->
  (mapM (fun yxg => f (fst (fst yxg)) (snd (fst yxg)) (snd yxg))
        (combine (combine ys xs) gs) = Ok rs
   <->
   length rs = length ys /\
   forall k y x g,
     nth_error ys k = Some y -> nth_error xs k = Some x ->
     nth_error gs k = Some g ->
     exists r, nth_error rs k = Some r /\ f y x g = Ok r).
Proof.
  revert xs gs rs.
  induction ys as [|y0 ys IH]; intros xs gs rs Hx Hg.
  - destruct xs; [|discriminate]. destruct gs; [|discriminate]. simpl. split.
    + intros Heq. injection Heq as <-. split; [reflexivity|].
      intros k y x g Hy. destruct k; discriminate.
    + intros [Hlen _]. destruct rs; [reflexivity | discriminate].
  - destruct xs as [|x0 xs]; [discriminate|].
    destruct gs as [|g0 gs]; [discriminate|].
    simpl in Hx, Hg. injection Hx as Hx. injection Hg as Hg.
    simpl. split.
    + intros Hrun. apply bind_Ok in Hrun. destruct Hrun as [r0 [Hr0 Hrun]].
      apply bind_Ok in Hrun. destruct Hrun as [rs' [Hrs' Hrun]].
      injection Hrun as <-.
      apply (IH xs gs rs' Hx Hg) in Hrs'. destruct Hrs' as [Hlen Hnth].
      split; [simpl; congruence|].
      intros k y x g Hy Hxk Hgk. destruct k as [|k]; simpl in *.
      * injection Hy as <-. injection Hxk as <-. injection Hgk as <-.
        exists r0. split; [reflexivity | exact Hr0].
      * exact (Hnth k y x g Hy Hxk Hgk).
    + intros [Hlen Hnth]. destruct rs as [|r0 rs']; [discriminate|].
      simpl in Hlen. injection Hlen as Hlen.
      destruct (Hnth 0 y0 x0 g0 eq_refl eq_refl eq_refl) as [r [Hr Hf]].
      simpl in Hr. injection Hr as <-. rewrite Hf. simpl.
      assert (Hrest : mapM (fun yxg => f (fst (fst yxg)) (snd (fst yxg)) (snd yxg))
                           (combine (combine ys xs) gs) = Ok rs').
      { apply (IH xs gs rs' Hx Hg). split; [exact Hlen|].
        intros k y x g Hy Hxk Hgk. exact (Hnth (S k) y x g Hy Hxk Hgk). }
      rewrite Hrest. reflexivity.
Qed.

(** ** rollout *)

Section RolloutProperties.
Context {R P M : Type} `{Scalar R}.

Lemma rollout_deer_rnn {L : Lib R P M} (model : RNNCell R P) (params : P)
  (mlp : Readout R M) (mlp_params : M) (y0 : Vec R) (inputs : list (Vec R))
  (guess : option (Traj R)) (nclasses : Z) :
  rollout model params mlp mlp_params y0 inputs guess "deer_rnn" nclasses =
  (y <- called "seq1d" (seq1d (model_func model) y0 inputs params guess) ;;
   y_last <- index_last y ;;
   Ok (mlp_apply mlp mlp_params y_last, y)).
Proof. reflexivity. Qed.

Lemma rollout_deer_rnn_not_dispatch_error {L : Lib R P M} (model : RNNCell R P)
  (params : P) (mlp : Readout R M) (mlp_params : M) (y0 : Vec R)
  (inputs : list (Vec R)) (guess : option (Traj R)) (nclasses : Z) :
  rollout model params mlp mlp_params y0 inputs guess "deer_rnn" nclasses
  <> Raise NotImplementedError.
Proof.
  rewrite rollout_deer_rnn. intros Hr.
  apply bind_Raise in Hr. destruct Hr as [Hr | [y [_ Hr]]].
  - destruct (seq1d (model_func model) y0 inputs params guess); discriminate.
  - apply bind_Raise in Hr. destruct Hr as [Hr | [a [_ Hr]]]; [|discriminate].
    unfold index_last in Hr. destruct y; [discriminate|].
    destruct (nth_error _ _); discriminate.
Qed.

(** C8: [rollout] raises [NotImplementedError], and so returns nothing,
    exactly for the method strings other than ["deer_rnn"]; for
    ["deer_rnn"] it is the solver branch: the call of [seq1d], the readout
    of the last entry, the pair. *)
Theorem rollout_dispatch_on_method {L : Lib R P M} (model : RNNCell R P)
  (params : P) (mlp : Readout R M) (mlp_params : M) (y0 : Vec R)
  (inputs : list (Vec R)) (guess : option (Traj R)) (method : string)
  (nclasses : Z) :
  (rollout model params mlp mlp_params y0 inputs guess method nclasses
   = Raise NotImplementedError <-> method <> "deer_rnn") /\
  rollout model params mlp mlp_params y0 inputs guess "deer_rnn" nclasses =
  (y <- called "seq1d" (seq1d (model_func model) y0 inputs params guess) ;;
   y_last <- index_last y ;;
   Ok (mlp_apply mlp mlp_params y_last, y)).
Proof.
  split; [|apply rollout_deer_rnn].
  destruct (String.eqb_spec method "deer_rnn") as [-> | Hne].
  - split; intros Hr.
    + exfalso. revert Hr. apply rollout_deer_rnn_not_dispatch_error.
    + exfalso. apply Hr. reflexivity.
  - split; intros _; [exact Hne|].
    unfold rollout. apply String.eqb_neq in Hne. rewrite Hne. reflexivity.
Qed.

End RolloutProperties.

Section ReadoutProperties.
Context {R P M : Type} `{Scalar R}.

(** C2: with method ["deer_rnn"], when the solver returns a trajectory [T]
    of shape (nseq, nstates) with nseq positive, [rollout] returns the pair
    of the readout of [T[nseq-1]] and [T] itself; and whatever solver is
    plugged in, a trajectory with the same final entry gives the same
    first component. *)
Theorem rollout_reads_out_final_entry {L : Lib R P M} (model : RNNCell R P)
  (params : P) (mlp : Readout R M) (mlp_params : M) (y0 : Vec R)
  (inputs : list (Vec R)) (guess : option (Traj R)) (nclasses : Z)
  (T : Traj R) (nstates : nat) :
  seq1d (model_func model) y0 inputs params guess = Some T ->
  has_shape T (length inputs) nstates ->
  0 < length inputs ->
  exists final,
    nth_error T (length inputs - 1) = Some final /\
    length final = nstates /\
    rollout model params mlp mlp_params y0 inputs guess "deer_rnn" nclasses
    = Ok (mlp_apply mlp mlp_params final, T) /\
    forall (other : Lib R P M) (T' : Traj R),
      @seq1d R P M other (model_func model) y0 inputs params guess = Some T' ->
      nth_error T' (length T' - 1) = Some final ->
      @rollout R P M other model params mlp mlp_params y0 inputs guess
               "deer_rnn" nclasses
      = Ok (mlp_apply mlp mlp_params final, T').
Proof.
  intros Hsolve [Hlen Hrows] Hpos.
  destruct (nth_error T (length inputs - 1)) as [final|] eqn:Hfinal.
  2:{ apply nth_error_None in Hfinal. lia. }
  exists final. split; [reflexivity|]. split.
  { rewrite Forall_forall in Hrows. apply Hrows.
    apply nth_error_In with (n := length inputs - 1). exact Hfinal. }
  split.
  - rewrite rollout_deer_rnn, Hsolve. simpl.
    assert (Hlast : index_last T = Ok final).
    { apply index_last_Ok. rewrite Hlen. split; assumption. }
    rewrite Hlast. reflexivity.
  - intros other T' Hsolve' Hfinal'.
    rewrite (rollout_deer_rnn (L := other)), Hsolve'. simpl.
    assert (Hlast : index_last T' = Ok final).
    { apply index_last_Ok. split; [|exact Hfinal'].
      destruct T'; [discriminate | simpl; lia]. }
    rewrite Hlast. reflexivity.
Qed.

End ReadoutProperties.

Import Toy.

Lemma rollout_reads_out_final_entry_witness :
  exists final,
    nth_error [[1; 1]; [4; 4]]%Z (length [[1]; [2]]%Z - 1) = Some final /\
    length final = 2 /\
    rollout (toy_cell 2) 2%Z (toy_dense 3) 1%Z [0; 0]%Z [[1]; [2]]%Z
            (Some [[0; 0]; [0; 0]]%Z) "deer_rnn" 10%Z
    = Ok (mlp_apply (toy_dense 3) 1%Z final, [[1; 1]; [4; 4]]%Z) /\
    forall (other : Lib Z Z Z) (T' : Traj Z),
      @seq1d Z Z Z other (model_func (toy_cell 2)) [0; 0]%Z [[1]; [2]]%Z 2%Z
             (Some [[0; 0]; [0; 0]]%Z) = Some T' ->
      nth_error T' (length T' - 1) = Some final ->
      @rollout Z Z Z other (toy_cell 2) 2%Z (toy_dense 3) 1%Z [0; 0]%Z
               [[1]; [2]]%Z (Some [[0; 0]; [0; 0]]%Z) "deer_rnn" 10%Z
      = Ok (mlp_apply (toy_dense 3) 1%Z final, T').
Proof.
  apply (rollout_reads_out_final_entry (toy_cell 2) 2%Z (toy_dense 3) 1%Z
           [0; 0]%Z [[1]; [2]]%Z (Some [[0; 0]; [0; 0]]%Z) 10%Z
           [[1; 1]; [4; 4]]%Z 2).
  - vm_compute. reflexivity.
  - split; [reflexivity | repeat constructor].
  - simpl. lia.
Defined.

(** ** The batched rollout *)

Section BatchProperties.
Context {R P M : Type} `{Scalar R} {L : Lib R P M}.

Lemma vmap_with_guesses {A B C D : Type} (f : A -> B -> option C -> result D)
  (ys : list A) (xs : list B) (gs : list C) (rs : list D) :
  vmap_axes_0_0_0 f ys xs (Some gs) = Ok rs
  <->
  length xs = length ys /\ length gs = length ys /\ length rs = length ys /\
  forall k y x g,
    nth_error ys k = Some y -> nth_error xs k = Some x ->
    nth_error gs k = Some g ->
    exists r, nth_error rs k = Some r /\ f y x (Some g) = Ok r.
Proof.
  unfold vmap_axes_0_0_0.
  destruct (Nat.eqb_spec (length ys) (length xs)) as [Hx | Hx]; simpl.
  2:{ split; [discriminate | intros [Hx' _]; congruence]. }
  destruct (Nat.eqb_spec (length gs) (length ys)) as [Hg | Hg]; simpl.
  2:{ split; [discriminate | intros [_ [Hg' _]]; congruence]. }
  symmetry in Hx.
  pose proof (mapM_zip3 (fun y x g => f y x (Some g)) ys xs gs rs Hx Hg) as Hzip.
  simpl in Hzip. rewrite Hzip. intuition.
Qed.

(** C3: the batched rollout of [loss_fn] returns, at each batch index, the
    output and the trajectory of the single call of [rollout] on that
    example's initial state, inputs and guess with the shared parameters,
    and it succeeds exactly when the axes agree and every such call
    does. *)
Theorem rollout_batch_is_per_example (model : RNNCell R P) (params : P)
  (mlp : Readout R M) (mlp_params : M)
  (y0 : list (Vec R)) (x : list (list (Vec R))) (guesses : list (Traj R))
  (outputs : list (Vec R)) (trajectories : list (Traj R)) :
  rollout_batch model params mlp mlp_params y0 x (Some guesses)
  = Ok (outputs, trajectories)
  <->
  length x = length y0 /\ length guesses = length y0 /\
  length outputs = length y0 /\ length trajectories = length y0 /\
  forall k y0_k x_k guess_k,
    nth_error y0 k = Some y0_k -> nth_error x k = Some x_k ->
    nth_error guesses k = Some guess_k ->
    exists out_k traj_k,
      nth_error outputs k = Some out_k /\
      nth_error trajectories k = Some traj_k /\
      rollout model params mlp mlp_params y0_k x_k (Some guess_k)
              default_method default_nclasses = Ok (out_k, traj_k).
Proof.
  unfold rollout_batch. rewrite bind_Ok. split.
  - intros [rs [Hmap Hsplit]]. injection Hsplit as Hsplit.
    apply vmap_with_guesses in Hmap.
    destruct Hmap as [Hx [Hg [Hlen Hnth]]].
    destruct (split_length rs) as [Hl1 Hl2].
    rewrite Hsplit in Hl1, Hl2. simpl in Hl1, Hl2.
    repeat split; try congruence.
    intros k y0_k x_k guess_k Hy Hxk Hgk.
    destruct (Hnth k y0_k x_k guess_k Hy Hxk Hgk) as [[o t] [Hr Hf]].
    exists o, t. destruct (split_nth_error rs k) as [Hn1 Hn2].
    rewrite Hsplit in Hn1, Hn2. simpl in Hn1, Hn2.
    rewrite Hn1, Hn2, Hr. repeat split. exact Hf.
  - intros [Hx [Hg [Hlo [Hlt Hnth]]]].
    exists (combine outputs trajectories). split.
    + apply vmap_with_guesses. repeat split; try assumption.
      * rewrite length_combine. lia.
      * intros k y0_k x_k guess_k Hy Hxk Hgk.
        destruct (Hnth k y0_k x_k guess_k Hy Hxk Hgk) as [o [t [Ho [Ht Hf]]]].
        exists (o, t). split; [|exact Hf].
        apply combine_nth_error; assumption.
    + rewrite combine_split by congruence. reflexivity.
Qed.

Lemma rollout_batch_nth (model : RNNCell R P) (params : P)
  (mlp : Readout R M) (mlp_params : M)
  (y0 : list (Vec R)) (x : list (list (Vec R))) (guesses : list (Traj R))
  (outputs : list (Vec R)) (trajectories : list (Traj R))
  (k : nat) (y0_k : Vec R) (x_k : list (Vec R)) (guess_k : Traj R) :
  rollout_batch model params mlp mlp_params y0 x (Some guesses)
  = Ok (outputs, trajectories) ->
  nth_error y0 k = Some y0_k -> nth_error x k = Some x_k ->
  nth_error guesses k = Some guess_k ->
  exists out_k traj_k,
    nth_error outputs k = Some out_k /\
    nth_error trajectories k = Some traj_k /\
    rollout model params mlp mlp_params y0_k x_k (Some guess_k)
            default_method default_nclasses = Ok (out_k, traj_k).
Proof.
  unfold rollout_batch. rewrite bind_Ok.
  intros [rs [Hmap Hsplit]] Hy Hx Hg. injection Hsplit as Hsplit.
  apply vmap_with_guesses in Hmap. destruct Hmap as [_ [_ [_ Hnth]]].
  destruct (Hnth k y0_k x_k guess_k Hy Hx Hg) as [[o t] [Hr Hf]].
  exists o, t. destruct (split_nth_error rs k) as [Hn1 Hn2].
  rewrite Hsplit in Hn1, Hn2. simpl in Hn1, Hn2.
  rewrite Hn1, Hn2, Hr. repeat split. exact Hf.
Qed.

Lemma rollout_batch_lengths (model : RNNCell R P) (params : P)
  (mlp : Readout R M) (mlp_params : M)
  (y0 : list (Vec R)) (x : list (list (Vec R))) (guesses : list (Traj R))
  (outputs : list (Vec R)) (trajectories : list (Traj R)) :
  rollout_batch model params mlp mlp_params y0 x (Some guesses)
  = Ok (outputs, trajectories) ->
  length x = length y0 /\ length guesses = length y0 /\
  length outputs = length y0 /\ length trajectories = length y0.
Proof.
  unfold rollout_batch. rewrite bind_Ok.
  intros [rs [Hmap Hsplit]]. injection Hsplit as Hsplit.
  apply vmap_with_guesses in Hmap. destruct Hmap as [Hx [Hg [Hlen _]]].
  destruct (split_length rs) as [Hl1 Hl2].
  rewrite Hsplit in Hl1, Hl2. simpl in Hl1, Hl2.
  repeat split; congruence.
Qed.

End BatchProperties.

(** ** The training step *)

Section StepProperties.
Context {R P M O : Type} `{Scalar R} {L : Lib R P M}.

Lemma mapM_length {A B : Type} (f : A -> result B) (l : list A) (rs : list B) :
  mapM f l = Ok rs -> length rs = length l.
Proof.
  revert rs. induction l as [|a l IH]; intros rs Hrun; simpl in Hrun.
  - injection Hrun as <-. reflexivity.
  - apply bind_Ok in Hrun. destruct Hrun as [b [_ Hrun]].
    apply bind_Ok in Hrun. destruct Hrun as [bs [Hbs Hrun]].
    injection Hrun as <-. simpl. rewrite (IH bs Hbs). reflexivity.
Qed.

Lemma jnp_equal_same_length (a b : list Z) :
  length a = length b ->
  jnp_equal a b = Ok (map (fun ab => Z.eqb (fst ab) (snd ab)) (combine a b)).
Proof.
  intros Hlen. unfold jnp_equal. apply Nat.eqb_eq in Hlen. rewrite Hlen.
  reflexivity.
Qed.

Lemma compute_metrics_Ok (logits : list (Vec R)) (labels : list Z)
  (metrics : Metrics) :
  compute_metrics logits labels = Ok metrics
  <->
  exists losses predicted hits,
    softmax_cross_entropy_with_integer_labels logits labels = Some losses /\
    mapM argmax logits = Ok predicted /\
    jnp_equal predicted labels = Ok hits /\
    metrics = {| loss := jnp_mean losses;
                 accuracy := jnp_mean (map of_bool hits) |}.
Proof.
  unfold compute_metrics. rewrite bind_Ok. split.
  - intros [losses [Hl Hrest]]. apply called_Ok in Hl.
    apply bind_Ok in Hrest. destruct Hrest as [predicted [Hp Hrest]].
    apply bind_Ok in Hrest. destruct Hrest as [hits [Hh Hrest]].
    injection Hrest as <-. exists losses, predicted, hits. repeat split; assumption.
  - intros [losses [predicted [hits [Hl [Hp [Hh ->]]]]]].
    exists losses. split; [apply called_Ok; exact Hl|].
    rewrite Hp. simpl. rewrite Hh. reflexivity.
Qed.

Lemma loss_fn_Ok (model : RNNCell R P) (params : P) (mlp : Readout R M)
  (mlp_params : M) (y0 : list (Vec R)) (x : list (list (Vec R)))
  (labels : list Z) (guesses : option (list (Traj R))) (method : string)
  (l a : R) (trajectories : list (Traj R)) :
  loss_fn model params mlp mlp_params y0 (x, labels) guesses method
  = Ok (l, (a, trajectories))
  <->
  exists logits,
    rollout_batch model params mlp mlp_params y0 x guesses
    = Ok (logits, trajectories) /\
    compute_metrics logits labels = Ok {| loss := l; accuracy := a |}.
Proof.
  unfold loss_fn. rewrite bind_Ok. split.
  - intros [[logits trajs] [Hb Hrest]].
    apply bind_Ok in Hrest. destruct Hrest as [[l' a'] [Hm Hrest]].
    simpl in Hrest. injection Hrest as <- <- <-.
    exists logits. split; assumption.
  - intros [logits [Hb Hm]]. exists (logits, trajectories).
    split; [exact Hb|]. rewrite Hm. reflexivity.
Qed.

Lemma update_step_Ok (model : RNNCell R P) (mlp : Readout R M)
  (optimizer : GradientTransformation (CombinedParams P M) O)
  (cp : CombinedParams P M) (os : O) (batch : list (list (Vec R)) * list Z)
  (y0 : list (Vec R)) (guesses : list (Traj R)) (method : string)
  (cp' : CombinedParams P M) (os' : O) (l a : R)
  (trajectories : list (Traj R)) :
  update_step model mlp optimizer cp os batch y0 guesses method
  = Ok (cp', os', l, a, trajectories)
  <->
  loss_fn model (cp_params cp) mlp (cp_mlp_params cp) y0 batch (Some guesses)
          method = Ok (l, (a, trajectories)) /\
  let grad := jax_grad _
                (fun params mlp_params =>
                   loss_fn model params mlp mlp_params y0 batch (Some guesses)
                           method)
                (cp_params cp) (cp_mlp_params cp) in
  let step := opt_update optimizer
                {| cp_params := fst grad; cp_mlp_params := snd grad |} os in
  cp' = apply_updates cp (fst step) /\ os' = snd step.
Proof.
  unfold update_step, value_and_grad. rewrite bind_Ok. cbv zeta.
  set (grad := jax_grad _ _ (cp_params cp) (cp_mlp_params cp)).
  split.
  - intros [[[l0 [a0 t0]] grad'] [Hv Hrest]].
    apply bind_Ok in Hv. destruct Hv as [va [Hf Hv]].
    injection Hv as -> <-. fold grad in Hrest.
    destruct (opt_update optimizer _ os) as [updates os2].
    injection Hrest as <- <- <- <- <-.
    split; [exact Hf|]. split; reflexivity.
  - intros [Hf [Hcp Hos]]. exists ((l, (a, trajectories)), grad). split.
    + rewrite Hf. reflexivity.
    + destruct (opt_update optimizer _ os) as [updates os2].
      simpl in Hcp, Hos. subst. reflexivity.
Qed.

(** C4: the loss of a training step is the mean of the softmax
    cross-entropy between the logits of the batched rollout and the integer
    labels, at the parameters of the step and at every other parameter
    point of the differentiated function; the returned parameters are the
    incoming ones plus the optimizer's update computed from the gradient of
    that function with respect to both the cell's and the readout's
    parameters. *)
Theorem update_step_follows_gradient_of_mean_cross_entropy
  (model : RNNCell R P) (mlp : Readout R M)
  (optimizer : GradientTransformation (CombinedParams P M) O)
  (cp : CombinedParams P M) (os : O) (x : list (list (Vec R)))
  (labels : list Z) (y0 : list (Vec R)) (guesses : list (Traj R))
  (method : string) (cp' : CombinedParams P M) (os' : O) (l a : R)
  (trajectories : list (Traj R)) :
  update_step model mlp optimizer cp os (x, labels) y0 guesses method
  = Ok (cp', os', l, a, trajectories) ->
  let objective := fun params mlp_params =>
        loss_fn model params mlp mlp_params y0 (x, labels) (Some guesses) method in
  let grad := jax_grad _ objective (cp_params cp) (cp_mlp_params cp) in
  let updates := fst (opt_update optimizer
                        {| cp_params := fst grad; cp_mlp_params := snd grad |} os) in
  (exists logits losses,
     rollout_batch model (cp_params cp) mlp (cp_mlp_params cp) y0 x (Some guesses)
     = Ok (logits, trajectories) /\
     softmax_cross_entropy_with_integer_labels logits labels = Some losses /\
     l = jnp_mean losses) /\
  (forall params mlp_params l' a' trajectories',
     objective params mlp_params = Ok (l', (a', trajectories')) ->
     exists logits losses,
       rollout_batch model params mlp mlp_params y0 x (Some guesses)
       = Ok (logits, trajectories') /\
       softmax_cross_entropy_with_integer_labels logits labels = Some losses /\
       l' = jnp_mean losses) /\
  cp_params cp' = tree_add_params (cp_params cp) (cp_params updates) /\
  cp_mlp_params cp' =
    tree_add_mlp_params (cp_mlp_params cp) (cp_mlp_params updates).
Proof.
  intros Hstep objective grad updates.
  apply update_step_Ok in Hstep. destruct Hstep as [Hloss [Hcp _]].
  assert (Hmean : forall params mlp_params l' a' trajectories',
     objective params mlp_params = Ok (l', (a', trajectories')) ->
     exists logits losses,
       rollout_batch model params mlp mlp_params y0 x (Some guesses)
       = Ok (logits, trajectories') /\
       softmax_cross_entropy_with_integer_labels logits labels = Some losses /\
       l' = jnp_mean losses).
  { intros params mlp_params l' a' trajectories' Hobj.
    apply loss_fn_Ok in Hobj. destruct Hobj as [logits [Hb Hm]].
    apply compute_metrics_Ok in Hm.
    destruct Hm as [losses [predicted [hits [Hl [_ [_ Hm]]]]]].
    injection Hm as -> _. exists logits, losses. repeat split; assumption. }
  split; [exact (Hmean _ _ _ _ _ Hloss)|].
  split; [exact Hmean|].
  subst cp'. split; reflexivity.
Qed.

Lemma mapM_nth {A B : Type} (f : A -> result B) (l : list A) (rs : list B)
  (k : nat) (a : A) (r : B) :
  mapM f l = Ok rs -> nth_error l k = Some a -> nth_error rs k = Some r ->
  f a = Ok r.
Proof.
  revert rs k. induction l as [|a0 l IH]; intros rs k Hrun Ha Hr.
  - destruct k; discriminate.
  - simpl in Hrun. apply bind_Ok in Hrun. destruct Hrun as [b [Hb Hrun]].
    apply bind_Ok in Hrun. destruct Hrun as [bs [Hbs Hrun]].
    injection Hrun as <-. destruct k as [|k]; simpl in Ha, Hr.
    + injection Ha as <-. injection Hr as <-. exact Hb.
    + exact (IH bs k Hbs Ha Hr).
Qed.

Lemma nth_error_snoc {A : Type} (pre : list A) (a : A) (j : nat) (v : A) :
  nth_error (pre ++ [a]) j = Some v ->
  (j < length pre /\ nth_error pre j = Some v) \/ (j = length pre /\ v = a).
Proof.
  intros Hj. destruct (Nat.lt_ge_cases j (length pre)) as [Hlt | Hge].
  - left. rewrite nth_error_app1 in Hj by exact Hlt. split; assumption.
  - right. rewrite nth_error_app2 in Hj by exact Hge.
    destruct (j - length pre) as [|d] eqn:Hd; simpl in Hj.
    + injection Hj as <-. split; [lia | reflexivity].
    + destruct d; discriminate.
Qed.

(** The scan of [argmax]: started on the entries after [pre] with the best
    entry of [pre] and its index, it ends on an entry that no entry
    exceeds and that every earlier entry is below. *)
Lemma argmax_from_spec (rest pre : list R) (best : R) (bi : nat) :
  strict_weak_order ->
  nth_error pre bi = Some best ->
  (forall j v, nth_error pre j = Some v -> Rltb best v = false) ->
  (forall j v, j < bi -> nth_error pre j = Some v -> Rltb v best = true) ->
  exists top,
    nth_error (pre ++ rest) (argmax_from best bi (length pre) rest)
    = Some top /\
    (forall j v, nth_error (pre ++ rest) j = Some v -> Rltb top v = false) /\
    (forall j v, j < argmax_from best bi (length pre) rest ->
                 nth_error (pre ++ rest) j = Some v -> Rltb v top = true).
Proof.
  intros [Hirr [Htrans Hcotrans]].
  revert pre best bi. induction rest as [|a rest IH];
    intros pre best bi Hbest Hmax Hfirst.
  - simpl. rewrite app_nil_r. exists best. repeat split; assumption.
  - assert (Hbi : bi < length pre).
    { apply nth_error_Some. rewrite Hbest. discriminate. }
    replace (pre ++ a :: rest)%list with ((pre ++ [a]) ++ rest)%list
      by (rewrite <- app_assoc; reflexivity).
    simpl. replace (S (length pre)) with (length (pre ++ [a]))
      by (rewrite length_app; simpl; lia).
    destruct (Rltb best a) eqn:Hlt.
    + apply IH.
      * rewrite nth_error_app2 by lia. rewrite Nat.sub_diag. reflexivity.
      * intros j v Hj. apply nth_error_snoc in Hj.
        destruct Hj as [[_ Hj] | [_ ->]]; [|apply Hirr].
        destruct (Rltb a v) eqn:Hav; [|reflexivity].
        pose proof (Hmax j v Hj) as Hbv.
        rewrite (Htrans best a v Hlt Hav) in Hbv. discriminate.
      * intros j v Hjlt Hj. apply nth_error_snoc in Hj.
        destruct Hj as [[_ Hj] | [Hj' _]]; [|lia].
        destruct (Hcotrans best a v Hlt) as [Hbv | Hva]; [|exact Hva].
        rewrite (Hmax j v Hj) in Hbv. discriminate.
    + apply IH.
      * rewrite nth_error_app1 by exact Hbi. exact Hbest.
      * intros j v Hj. apply nth_error_snoc in Hj.
        destruct Hj as [[_ Hj] | [_ ->]]; [exact (Hmax j v Hj) | exact Hlt].
      * intros j v Hjlt Hj. apply nth_error_snoc in Hj.
        destruct Hj as [[_ Hj] | [Hj' _]]; [exact (Hfirst j v Hjlt Hj) | lia].
Qed.

(** [argmax] returns the index of the first largest entry. *)
Lemma argmax_spec (row : Vec R) (p : Z) :
  strict_weak_order ->
  argmax row = Ok p ->
  exists i top,
    p = Z.of_nat i /\ nth_error row i = Some top /\
    (forall j v, nth_error row j = Some v -> Rltb top v = false) /\
    (forall j v, j < i -> nth_error row j = Some v -> Rltb v top = true).
Proof.
  intros Hswo Harg. destruct row as [|a rest]; [discriminate|].
  simpl in Harg. injection Harg as <-.
  destruct (argmax_from_spec rest [a] a 0 Hswo eq_refl) as [top [Ht [Hm Hf]]].
  - intros j v Hj. destruct j as [|[|j]]; try discriminate.
    injection Hj as <-. apply (proj1 Hswo).
  - intros j v Hj. lia.
  - exists (argmax_from a 0 1 rest), top. repeat split; assumption.
Qed.

(** C9: the loss and the accuracy returned by [update_step] are the
    metrics of the logits that the batched rollout produces with the
    parameters passed in (not the updated ones it returns); the accuracy is
    the mean, over the batch, of the indicator (one or zero) that the
    predicted class of an example is its label, the predicted class being
    the argmax of the example's logits: the index of the first entry that
    no entry exceeds, when the scalars are ordered. *)
Theorem update_step_metrics_use_entry_parameters
  (model : RNNCell R P) (mlp : Readout R M)
  (optimizer : GradientTransformation (CombinedParams P M) O)
  (cp : CombinedParams P M) (os : O) (x : list (list (Vec R)))
  (labels : list Z) (y0 : list (Vec R)) (guesses : list (Traj R))
  (method : string) (cp' : CombinedParams P M) (os' : O) (l a : R)
  (trajectories : list (Traj R)) :
  update_step model mlp optimizer cp os (x, labels) y0 guesses method
  = Ok (cp', os', l, a, trajectories) ->
  length labels = length x ->
  exists logits predicted,
    rollout_batch model (cp_params cp) mlp (cp_mlp_params cp) y0 x (Some guesses)
    = Ok (logits, trajectories) /\
    compute_metrics logits labels = Ok {| loss := l; accuracy := a |} /\
    mapM argmax logits = Ok predicted /\
    length logits = length labels /\
    length predicted = length labels /\
    (strict_weak_order ->
     forall k row p,
       nth_error logits k = Some row -> nth_error predicted k = Some p ->
       exists i top,
         p = Z.of_nat i /\ nth_error row i = Some top /\
         (forall j v, nth_error row j = Some v -> Rltb top v = false) /\
         (forall j v, j < i -> nth_error row j = Some v -> Rltb v top = true)) /\
    a = jnp_mean (map (fun pl => if Z.eqb (fst pl) (snd pl) then R1 else R0)
                      (combine predicted labels)).
Proof.
  intros Hstep Hlabels.
  apply update_step_Ok in Hstep. destruct Hstep as [Hloss _].
  apply loss_fn_Ok in Hloss. destruct Hloss as [logits [Hb Hm]].
  pose proof Hm as Hm'. apply compute_metrics_Ok in Hm'.
  destruct Hm' as [losses [predicted [hits [_ [Hp [Hh Hm']]]]]].
  injection Hm' as _ ->.
  exists logits, predicted. split; [exact Hb|]. split; [exact Hm|].
  split; [exact Hp|].
  destruct (rollout_batch_lengths _ _ _ _ _ _ _ _ _ Hb) as [Hx [_ [Ho _]]].
  assert (Hlogits : length logits = length labels) by lia.
  assert (Hlen : length predicted = length labels).
  { apply mapM_length in Hp. lia. }
  split; [exact Hlogits|]. split; [exact Hlen|]. split.
  - intros Hswo k row p Hrow Hpk.
    apply (argmax_spec row p Hswo). exact (mapM_nth _ _ _ _ _ _ Hp Hrow Hpk).
  - rewrite (jnp_equal_same_length _ _ Hlen) in Hh. injection Hh as <-.
    rewrite map_map. reflexivity.
Qed.

End StepProperties.

Lemma update_step_follows_gradient_of_mean_cross_entropy_witness :
  update_step (toy_cell 2) (toy_dense 3) (toy_adam 1%Z) toy_cp 0
              (toy_x, toy_labels) toy_y0 toy_guesses "deer_rnn"
  = Ok ({| cp_params := (-15)%Z; cp_mlp_params := (-58)%Z |}, 1, 59%Z, 0%Z,
        [[[1; 1]; [4; 4]]; [[5; 5]; [17; 17]]]%Z) /\
  exists logits losses,
    rollout_batch (toy_cell 2) 2%Z (toy_dense 3) 1%Z toy_y0 toy_x
                  (Some toy_guesses)
    = Ok (logits, [[[1; 1]; [4; 4]]; [[5; 5]; [17; 17]]]%Z) /\
    toy_xent logits toy_labels = Some losses /\
    59%Z = jnp_mean losses.
Proof.
  assert (Hrun :
    update_step (toy_cell 2) (toy_dense 3) (toy_adam 1%Z) toy_cp 0
                (toy_x, toy_labels) toy_y0 toy_guesses "deer_rnn"
    = Ok ({| cp_params := (-15)%Z; cp_mlp_params := (-58)%Z |}, 1, 59%Z, 0%Z,
          [[[1; 1]; [4; 4]]; [[5; 5]; [17; 17]]]%Z)).
  { vm_compute. reflexivity. }
  split; [exact Hrun|].
  exact (proj1 (update_step_follows_gradient_of_mean_cross_entropy
                  _ _ _ _ _ _ _ _ _ _ _ _ _ _ _ Hrun)).
Defined.

(** The integers of the small instance are ordered. *)
Lemma Z_strict_weak_order : strict_weak_order (R := Z).
Proof.
  repeat split; simpl.
  - apply Z.ltb_irrefl.
  - intros a b c Hab Hbc. apply Z.ltb_lt in Hab, Hbc. apply Z.ltb_lt. lia.
  - intros a b c Hab. apply Z.ltb_lt in Hab.
    destruct (Z.ltb_spec a c) as [Hac | Hca]; [left; reflexivity|].
    right. apply Z.ltb_lt. lia.
Qed.

Lemma update_step_metrics_use_entry_parameters_witness :
  exists logits predicted,
    rollout_batch (toy_cell 2) (cp_params toy_cp) (toy_dense 3)
                  (cp_mlp_params toy_cp) toy_y0 toy_x (Some toy_guesses)
    = Ok (logits, [[[1; 1]; [4; 4]]; [[5; 5]; [17; 17]]]%Z) /\
    compute_metrics logits [2; 2]%Z = Ok {| loss := 21%Z; accuracy := 1%Z |} /\
    mapM argmax logits = Ok predicted /\
    length logits = 2 /\
    length predicted = 2 /\
    (forall k row p,
       nth_error logits k = Some row -> nth_error predicted k = Some p ->
       exists i top,
         p = Z.of_nat i /\ nth_error row i = Some top /\
         (forall j v, nth_error row j = Some v -> Z.ltb top v = false) /\
         (forall j v, j < i -> nth_error row j = Some v -> Z.ltb v top = true)) /\
    1%Z = jnp_mean (map (fun pl => if Z.eqb (fst pl) (snd pl) then 1%Z else 0%Z)
                        (combine predicted [2; 2]%Z)).
Proof.
  destruct (update_step_metrics_use_entry_parameters
              (toy_cell 2) (toy_dense 3) (toy_adam 1%Z) toy_cp 0 toy_x
              [2; 2]%Z toy_y0 toy_guesses "deer_rnn"
              {| cp_params := (-4)%Z; cp_mlp_params := (-20)%Z |} 1 21%Z 1%Z
              [[[1; 1]; [4; 4]]; [[5; 5]; [17; 17]]]%Z)
    as [logits [predicted [Hb [Hm [Hp [Hl [Hlp [Hargmax Ha]]]]]]]].
  - vm_compute. reflexivity.
  - reflexivity.
  - exists logits, predicted.
    split; [exact Hb|]. split; [exact Hm|]. split; [exact Hp|].
    split; [exact Hl|]. split; [exact Hlp|]. split; [|exact Ha].
    exact (Hargmax Z_strict_weak_order).
Defined.

(** ** The training loop *)

Section LoopProperties.
Context {R P M O Raw : Type} `{Scalar R} {L : Lib R P M}.

Lemma prep_batch_id (batch : list (list (Vec R)) * list Z) :
  prep_batch batch = batch.
Proof. destruct batch as [x y]. reflexivity. Qed.

Lemma loop_body_Ok (model : RNNCell R P) (mlp : Readout R M)
  (optimizer : GradientTransformation (CombinedParams P M) O)
  (dm : DataModule R Raw) (s s' : Locals R P M O) (i : nat) (batch : Raw) :
  loop_body model mlp optimizer dm s i batch = Ok s'
  <->
  exists cp' os' l a trajectories,
    update_step model mlp optimizer (combined_params s) (opt_state s)
                (on_before_batch_transfer dm batch i) (y0 s) (yinit_guess s)
                default_method
    = Ok (cp', os', l, a, trajectories) /\
    s' = {| combined_params := cp';
            opt_state := os';
            yinit_guess := trajectories;
            y0 := y0 s;
            step := step s + 1;
            summary_writer := summary_writer s ++ [("train_loss", l, step s)] |}.
Proof.
  unfold loop_body. rewrite prep_batch_id, bind_Ok. split.
  - intros [[[[[cp' os'] l] a] trajectories] [Hu Hs]].
    injection Hs as <-. exists cp', os', l, a, trajectories.
    split; [exact Hu | reflexivity].
  - intros [cp' [os' [l [a [trajectories [Hu ->]]]]]].
    exists (cp', os', l, a, trajectories). split; [exact Hu | reflexivity].
Qed.

(** The forward pass of one iteration: the batched rollout with the
    parameters the iteration starts from. *)
Lemma loop_body_forward (model : RNNCell R P) (mlp : Readout R M)
  (optimizer : GradientTransformation (CombinedParams P M) O)
  (dm : DataModule R Raw) (s s' : Locals R P M O) (i : nat) (batch : Raw) :
  loop_body model mlp optimizer dm s i batch = Ok s' ->
  y0 s' = y0 s /\
  exists logits,
    rollout_batch model (cp_params (combined_params s)) mlp
                  (cp_mlp_params (combined_params s)) (y0 s)
                  (fst (on_before_batch_transfer dm batch i))
                  (Some (yinit_guess s))
    = Ok (logits, yinit_guess s').
Proof.
  intros Hbody. apply loop_body_Ok in Hbody.
  destruct Hbody as [cp' [os' [l [a [trajectories [Hu ->]]]]]]. simpl.
  split; [reflexivity|].
  destruct (on_before_batch_transfer dm batch i) as [x labels].
  apply update_step_Ok in Hu. destruct Hu as [Hloss _].
  apply loss_fn_Ok in Hloss. destruct Hloss as [logits [Hb _]].
  exists logits. exact Hb.
Qed.

(** C5: when an iteration of the training loop completes, the warm-start
    array of the state it hands to the next iteration is the array of
    trajectories of its own batched rollout, run with the parameters the
    iteration started from, whatever the array held before. *)
Theorem warm_start_is_replaced_by_forward_trajectories
  (model : RNNCell R P) (mlp : Readout R M)
  (optimizer : GradientTransformation (CombinedParams P M) O)
  (dm : DataModule R Raw) (s s' : Locals R P M O) (i : nat) (batch : Raw) :
  loop_body model mlp optimizer dm s i batch = Ok s' ->
  (exists logits,
     rollout_batch model (cp_params (combined_params s)) mlp
                   (cp_mlp_params (combined_params s)) (y0 s)
                   (fst (on_before_batch_transfer dm batch i))
                   (Some (yinit_guess s))
     = Ok (logits, yinit_guess s')) /\
  forall rest,
    epoch_loop model mlp optimizer dm s i (batch :: rest)
    = epoch_loop model mlp optimizer dm s' (S i) rest.
Proof.
  intros Hbody. split.
  - exact (proj2 (loop_body_forward _ _ _ _ _ _ _ _ Hbody)).
  - intros rest. simpl. rewrite Hbody. reflexivity.
Qed.

(** What one solve of an iteration is called with: example [k] of the
    batch is solved from [y0[k]] with the guess [yinit_guess[k]]. *)
Lemma loop_body_solves (model : RNNCell R P) (mlp : Readout R M)
  (optimizer : GradientTransformation (CombinedParams P M) O)
  (dm : DataModule R Raw) (s s' : Locals R P M O) (i : nat) (batch : Raw)
  (k : nat) (x_k : list (Vec R)) :
  loop_body model mlp optimizer dm s i batch = Ok s' ->
  nth_error (fst (on_before_batch_transfer dm batch i)) k = Some x_k ->
  exists y0_k guess_k traj_k,
    nth_error (y0 s) k = Some y0_k /\
    nth_error (yinit_guess s) k = Some guess_k /\
    nth_error (yinit_guess s') k = Some traj_k /\
    seq1d (model_func model) y0_k x_k (cp_params (combined_params s))
          (Some guess_k) = Some traj_k.
Proof.
  intros Hbody Hx.
  destruct (loop_body_forward _ _ _ _ _ _ _ _ Hbody) as [_ [logits Hb]].
  destruct (rollout_batch_lengths _ _ _ _ _ _ _ _ _ Hb) as [Hlx [Hlg _]].
  assert (Hk : k < length (fst (on_before_batch_transfer dm batch i))).
  { apply nth_error_Some. rewrite Hx. discriminate. }
  destruct (nth_error (y0 s) k) as [y0_k|] eqn:Hy.
  2:{ apply nth_error_None in Hy. lia. }
  destruct (nth_error (yinit_guess s) k) as [guess_k|] eqn:Hg.
  2:{ apply nth_error_None in Hg. lia. }
  destruct (rollout_batch_nth _ _ _ _ _ _ _ _ _ _ _ _ _ Hb Hy Hx Hg)
    as [out_k [traj_k [_ [Ht Hr]]]].
  exists y0_k, guess_k, traj_k. repeat split; try assumption.
  unfold default_method in Hr. rewrite rollout_deer_rnn in Hr.
  apply bind_Ok in Hr. destruct Hr as [y [Hy' Hr]]. apply called_Ok in Hy'.
  apply bind_Ok in Hr. destruct Hr as [y_last [_ Hr]].
  injection Hr as _ <-. exact Hy'.
Qed.

End LoopProperties.

Lemma warm_start_is_replaced_by_forward_trajectories_witness :
  exists logits,
    rollout_batch (toy_cell 2) 2%Z (toy_dense 3) 1%Z [[0; 0]]%Z
                  [fst example_A] (Some [[[0; 0]; [0; 0]]]%Z)
    = Ok (logits, [[[1; 1]; [4; 4]]]%Z).
Proof.
  exact (proj1 (warm_start_is_replaced_by_forward_trajectories
    (toy_cell 2) (toy_dense 3) (toy_adam 1%Z) (toy_data 1)
    (main_setup (toy_args "deer"))
    {| combined_params := {| cp_params := (-2)%Z; cp_mlp_params := (-15)%Z |};
       opt_state := 1;
       yinit_guess := [[[1; 1]; [4; 4]]]%Z;
       y0 := [[0; 0]]%Z;
       step := 1;
       summary_writer := [("train_loss", 16%Z, 0)] |}
    0 ([fst example_A], [snd example_A]) eq_refl)).
Defined.

(** ** Exceptions that cannot come out of the training loop *)

Section Unreachable.
Context {R P M O Raw : Type} `{Scalar R} {L : Lib R P M}.

Lemma bind_not_unimplemented {A B : Type} (c : result A) (k : A -> result B) :
  c <> Raise NotImplementedError ->
  (forall a, k a <> Raise NotImplementedError) ->
  bind c k <> Raise NotImplementedError.
Proof.
  intros Hc Hk Hb. apply bind_Raise in Hb.
  destruct Hb as [Hb | [a [_ Hb]]]; [exact (Hc Hb) | exact (Hk a Hb)].
Qed.

Lemma mapM_not_unimplemented {A B : Type} (f : A -> result B) (l : list A) :
  (forall a, f a <> Raise NotImplementedError) ->
  mapM f l <> Raise NotImplementedError.
Proof.
  intros Hf. induction l as [|a l IH]; simpl; [discriminate|].
  apply bind_not_unimplemented; [apply Hf|]. intros b.
  apply bind_not_unimplemented; [exact IH|]. discriminate.
Qed.

Lemma called_not_unimplemented {A : Type} (name : string) (r : option A) :
  called name r <> Raise NotImplementedError.
Proof. destruct r; discriminate. Qed.

Lemma rollout_batch_not_unimplemented (model : RNNCell R P) (params : P)
  (mlp : Readout R M) (mlp_params : M) (y0 : list (Vec R))
  (x : list (list (Vec R))) (guesses : option (list (Traj R))) :
  rollout_batch model params mlp mlp_params y0 x guesses
  <> Raise NotImplementedError.
Proof.
  unfold rollout_batch. apply bind_not_unimplemented; [|discriminate].
  unfold vmap_axes_0_0_0.
  destruct (negb (length y0 =? length x)); [discriminate|].
  destruct guesses as [gl|].
  - destruct (negb (length gl =? length y0)); [discriminate|].
    apply mapM_not_unimplemented. intros a.
    apply rollout_deer_rnn_not_dispatch_error.
  - apply mapM_not_unimplemented. intros a.
    apply rollout_deer_rnn_not_dispatch_error.
Qed.

Lemma compute_metrics_not_unimplemented (logits : list (Vec R))
  (labels : list Z) :
  compute_metrics logits labels <> Raise NotImplementedError.
Proof.
  unfold compute_metrics.
  apply bind_not_unimplemented; [apply called_not_unimplemented|]. intros losses.
  apply bind_not_unimplemented.
  { apply mapM_not_unimplemented. intros v. destruct v; discriminate. }
  intros predicted. apply bind_not_unimplemented; [|discriminate].
  unfold jnp_equal. destruct (length predicted =? length labels); [discriminate|].
  destruct predicted as [|p0 [|p1 ps]]; destruct labels as [|l0 [|l1 ls]];
    discriminate.
Qed.

Lemma loss_fn_not_unimplemented (model : RNNCell R P) (params : P)
  (mlp : Readout R M) (mlp_params : M) (y0 : list (Vec R))
  (batch : list (list (Vec R)) * list Z)
  (guesses : option (list (Traj R))) (method : string) :
  loss_fn model params mlp mlp_params y0 batch guesses method
  <> Raise NotImplementedError.
Proof.
  unfold loss_fn. destruct batch as [x y].
  apply bind_not_unimplemented; [apply rollout_batch_not_unimplemented|].
  intros [ypred trajectories].
  apply bind_not_unimplemented; [apply compute_metrics_not_unimplemented|].
  discriminate.
Qed.

Lemma update_step_not_unimplemented (model : RNNCell R P) (mlp : Readout R M)
  (optimizer : GradientTransformation (CombinedParams P M) O)
  (cp : CombinedParams P M) (os : O) (batch : list (list (Vec R)) * list Z)
  (y0 : list (Vec R)) (guesses : list (Traj R)) (method : string) :
  update_step model mlp optimizer cp os batch y0 guesses method
  <> Raise NotImplementedError.
Proof.
  unfold update_step. apply bind_not_unimplemented.
  - unfold value_and_grad.
    apply bind_not_unimplemented; [apply loss_fn_not_unimplemented|].
    discriminate.
  - intros [[l [a t]] grad]. destruct (opt_update optimizer _ os). discriminate.
Qed.

Lemma loop_body_not_unimplemented (model : RNNCell R P) (mlp : Readout R M)
  (optimizer : GradientTransformation (CombinedParams P M) O)
  (dm : DataModule R Raw) (s : Locals R P M O) (i : nat) (batch : Raw) :
  loop_body model mlp optimizer dm s i batch <> Raise NotImplementedError.
Proof.
  unfold loop_body.
  apply bind_not_unimplemented; [apply update_step_not_unimplemented|].
  intros [[[[cp' os'] l] a] t]. discriminate.
Qed.

Lemma epoch_loop_not_unimplemented (model : RNNCell R P) (mlp : Readout R M)
  (optimizer : GradientTransformation (CombinedParams P M) O)
  (dm : DataModule R Raw) (batches : list Raw) (s : Locals R P M O) (i : nat) :
  epoch_loop model mlp optimizer dm s i batches <> Raise NotImplementedError.
Proof.
  revert s i. induction batches as [|b rest IH]; intros s i; simpl.
  - discriminate.
  - apply bind_not_unimplemented; [apply loop_body_not_unimplemented|].
    intros s'. apply IH.
Qed.

Lemma training_loop_not_unimplemented (model : RNNCell R P) (mlp : Readout R M)
  (optimizer : GradientTransformation (CombinedParams P M) O)
  (dm : DataModule R Raw) (nepochs : nat) (s : Locals R P M O) (epoch : nat) :
  training_loop model mlp optimizer dm s epoch nepochs
  <> Raise NotImplementedError.
Proof.
  revert s epoch. induction nepochs as [|n IH]; intros s epoch; simpl.
  - discriminate.
  - apply bind_not_unimplemented; [apply epoch_loop_not_unimplemented|].
    intros s'. apply IH.
Qed.

End Unreachable.

(** ** main *)

Section MainProperties.
Context {R P M O Raw : Type} `{Scalar R} {L : Lib R P M}
        {RT : Runtime R P M O Raw}.

Lemma epoch_loop_reachable (args : Args R) (batches : list Raw)
  (s s' : Locals R P M O) (i : nat) :
  reachable args s ->
  epoch_loop (GRUCell (args_nstates args)) (MLP (args_nclass args))
             (adam (args_lr args)) (CIFAR10DataModule (args_batch_size args))
             s i batches = Ok s' ->
  reachable args s'.
Proof.
  revert s i. induction batches as [|b rest IH]; intros s i Hs Hrun; simpl in Hrun.
  - injection Hrun as <-. exact Hs.
  - apply bind_Ok in Hrun. destruct Hrun as [s1 [Hbody Hrun]].
    apply (IH s1 (S i)); [|exact Hrun].
    exact (reachable_iteration args s s1 i b Hs Hbody).
Qed.

Lemma training_loop_reachable (args : Args R) (nepochs : nat)
  (s s' : Locals R P M O) (epoch : nat) :
  reachable args s ->
  training_loop (GRUCell (args_nstates args)) (MLP (args_nclass args))
                (adam (args_lr args)) (CIFAR10DataModule (args_batch_size args))
                s epoch nepochs = Ok s' ->
  reachable args s'.
Proof.
  revert s epoch. induction nepochs as [|n IH]; intros s epoch Hs Hrun;
    simpl in Hrun.
  - injection Hrun as <-. exact Hs.
  - apply bind_Ok in Hrun. destruct Hrun as [s1 [Hepoch Hrun]].
    apply (IH s1 (S epoch)); [|exact Hrun].
    exact (epoch_loop_reachable args _ s s1 0 Hs Hepoch).
Qed.

(** The state [main] ends in is a state of its training loop. *)
Lemma main_reachable (args : Args R) (s : Locals R P M O) :
  main args = Ok s -> reachable args s.
Proof.
  unfold main. apply training_loop_reachable. apply reachable_setup.
Qed.

Lemma reachable_y0 (args : Args R) (s : Locals R P M O) :
  reachable args s ->
  y0 s = zeros2 (args_batch_size args) (args_nstates args).
Proof.
  induction 1 as [|s s' i batch Hs IH Hbody].
  - reflexivity.
  - destruct (loop_body_forward _ _ _ _ _ _ _ _ Hbody) as [Hy0 _].
    rewrite Hy0. exact IH.
Qed.

(** C7: in every state of the training loop [y0] is the array created
    before the loop, [batch_size] rows of [nstates] zeros each, and an
    iteration leaves it as it is; every solve of every iteration, for
    every example of the batch, is started from the example's row of
    [y0], a vector of length [nstates] whose entries are all zero, its
    guess being the example's row of the warm-start array. *)
Theorem every_solve_starts_from_the_zero_state (args : Args R)
  (s : Locals R P M O) :
  reachable args s ->
  y0 s = repeat (repeat R0 (args_nstates args)) (args_batch_size args) /\
  forall i batch s' k x_k,
    loop_body (GRUCell (args_nstates args)) (MLP (args_nclass args))
              (adam (args_lr args)) (CIFAR10DataModule (args_batch_size args))
              s i batch = Ok s' ->
    nth_error (fst (on_before_batch_transfer
                      (CIFAR10DataModule (args_batch_size args)) batch i)) k
    = Some x_k ->
    y0 s' = y0 s /\
    exists y0_k guess_k traj_k,
      nth_error (y0 s) k = Some y0_k /\
      length y0_k = args_nstates args /\
      (forall j v, nth_error y0_k j = Some v -> v = R0) /\
      nth_error (yinit_guess s) k = Some guess_k /\
      nth_error (yinit_guess s') k = Some traj_k /\
      seq1d (model_func (GRUCell (args_nstates args))) y0_k x_k
            (cp_params (combined_params s)) (Some guess_k) = Some traj_k /\
      seq1d (model_func (GRUCell (args_nstates args)))
            (repeat R0 (args_nstates args)) x_k
            (cp_params (combined_params s)) (Some guess_k) = Some traj_k.
Proof.
  intros Hs. pose proof (reachable_y0 args s Hs) as Hy0.
  split; [exact Hy0|].
  intros i batch s' k x_k Hbody Hx.
  split; [exact (proj1 (loop_body_forward _ _ _ _ _ _ _ _ Hbody))|].
  destruct (loop_body_solves _ _ _ _ _ _ _ _ k x_k Hbody Hx)
    as [y0_k [guess_k [traj_k [Hy [Hg [Ht Hsolve]]]]]].
  exists y0_k, guess_k, traj_k.
  assert (Hzero : y0_k = repeat R0 (args_nstates args)).
  { rewrite Hy0 in Hy. unfold zeros2 in Hy.
    apply nth_error_In in Hy. apply repeat_spec in Hy. exact Hy. }
  split; [exact Hy|]. split; [rewrite Hzero; apply repeat_length|].
  split.
  { intros j v Hj. rewrite Hzero in Hj. apply nth_error_In in Hj.
    apply repeat_spec in Hj. exact Hj. }
  split; [exact Hg|]. split; [exact Ht|]. split; [exact Hsolve|].
  rewrite <- Hzero. exact Hsolve.
Qed.

(** C10: the value of [--method] is read and then never used: the run of
    [main] is the same for every value of it, and neither an iteration of
    the training loop nor the whole run raises [NotImplementedError],
    although [rollout] called with the parser's default ["deer"] would. *)
Theorem method_option_never_reaches_rollout (args : Args R) :
  (forall method, main (with_method args method) = main args) /\
  (forall (model : RNNCell R P) (params : P) (mlp : Readout R M)
          (mlp_params : M) (y0 : Vec R) (inputs : list (Vec R))
          (guess : option (Traj R)) (nclasses : Z),
     rollout model params mlp mlp_params y0 inputs guess
             parser_default_method nclasses = Raise NotImplementedError) /\
  (forall (model : RNNCell R P) (mlp : Readout R M)
          (optimizer : GradientTransformation (CombinedParams P M) O)
          (dm : DataModule R Raw) (s : Locals R P M O) (i : nat) (batch : Raw),
     loop_body model mlp optimizer dm s i batch
     <> Raise NotImplementedError) /\
  main args <> Raise NotImplementedError.
Proof.
  split; [|split; [|split]].
  - intros method. reflexivity.
  - intros model params mlp mlp_params y0 inputs guess nclasses. reflexivity.
  - intros model mlp optimizer dm s i batch.
    apply loop_body_not_unimplemented.
  - unfold main. apply training_loop_not_unimplemented.
Qed.

(** C6, where the code departs from it: with one example per batch, the
    example of the second batch is solved with the trajectory of the
    example of the first batch as its guess, since the warm-start array has
    one row per batch slot, not one per example of the data set. *)
Theorem warm_start_row_passes_to_the_next_batch
  (model : RNNCell R P) (mlp : Readout R M)
  (optimizer : GradientTransformation (CombinedParams P M) O)
  (dm : DataModule R Raw) (s s2 : Locals R P M O) (batch_A batch_B : Raw)
  (x_A x_B : list (Vec R)) (labels_A labels_B : list Z) :
  on_before_batch_transfer dm batch_A 0 = ([x_A], labels_A) ->
  on_before_batch_transfer dm batch_B 1 = ([x_B], labels_B) ->
  epoch_loop model mlp optimizer dm s 0 [batch_A; batch_B] = Ok s2 ->
  exists s1 y0_0 guess_0 T_A T_B,
    loop_body model mlp optimizer dm s 0 batch_A = Ok s1 /\
    y0 s = [y0_0] /\ yinit_guess s = [guess_0] /\
    seq1d (model_func model) y0_0 x_A (cp_params (combined_params s))
          (Some guess_0) = Some T_A /\
    yinit_guess s1 = [T_A] /\
    seq1d (model_func model) y0_0 x_B (cp_params (combined_params s1))
          (Some T_A) = Some T_B /\
    yinit_guess s2 = [T_B].
Proof.
  intros HA HB Hrun. simpl in Hrun.
  apply bind_Ok in Hrun. destruct Hrun as [s1 [H1 Hrun]].
  apply bind_Ok in Hrun. destruct Hrun as [s2' [H2 Hrun]].
  injection Hrun as ->.
  destruct (loop_body_forward _ _ _ _ _ _ _ _ H1) as [Hy1 [logits1 Hb1]].
  destruct (loop_body_forward _ _ _ _ _ _ _ _ H2) as [Hy2 [logits2 Hb2]].
  rewrite HA in Hb1. rewrite HB in Hb2. simpl in Hb1, Hb2.
  destruct (rollout_batch_lengths _ _ _ _ _ _ _ _ _ Hb1) as [Hx1 [Hg1 [_ Ht1]]].
  destruct (rollout_batch_lengths _ _ _ _ _ _ _ _ _ Hb2) as [_ [_ [_ Ht2]]].
  simpl in Hx1. rewrite <- Hx1 in Hg1, Ht1. rewrite Hy1, <- Hx1 in Ht2.
  destruct (y0 s) as [|y0_0 [|? ?]] eqn:Ey0; try discriminate.
  destruct (yinit_guess s) as [|guess_0 [|? ?]] eqn:Eg0; try discriminate.
  destruct (yinit_guess s1) as [|T_A [|? ?]] eqn:Eg1; try discriminate.
  destruct (yinit_guess s2) as [|T_B [|? ?]] eqn:Eg2; try discriminate.
  destruct (loop_body_solves _ _ _ _ _ _ _ _ 0 x_A H1) as
    [a [g [t [Ha [Hg [Ht Hs1]]]]]]; [rewrite HA; reflexivity|].
  destruct (loop_body_solves _ _ _ _ _ _ _ _ 0 x_B H2) as
    [b [g' [t' [Hb [Hg' [Ht' Hs2]]]]]]; [rewrite HB; reflexivity|].
  rewrite Ey0 in Ha. rewrite Hy1 in Hb. rewrite Eg0 in Hg.
  rewrite Eg1 in Ht, Hg'. rewrite Eg2 in Ht'. simpl in *.
  injection Ha as <-. injection Hb as <-. injection Hg as <-.
  injection Ht as <-. injection Hg' as <-. injection Ht' as <-.
  exists s1, y0_0, guess_0, T_A, T_B. repeat split; assumption.
Qed.

End MainProperties.

Lemma every_solve_starts_from_the_zero_state_witness :
  reachable (toy_args "deer") toy_state_1 /\
  y0 toy_state_1 = [[0; 0]]%Z /\
  y0 toy_state_2 = y0 toy_state_1 /\
  exists y0_k guess_k traj_k,
    nth_error (y0 toy_state_1) 0 = Some y0_k /\
    length y0_k = 2 /\
    (forall j v, nth_error y0_k j = Some v -> v = 0%Z) /\
    nth_error (yinit_guess toy_state_1) 0 = Some guess_k /\
    nth_error (yinit_guess toy_state_2) 0 = Some traj_k /\
    seq1d (model_func (toy_cell 2)) y0_k (fst example_B) (-2)%Z (Some guess_k)
    = Some traj_k /\
    seq1d (model_func (toy_cell 2)) [0; 0]%Z (fst example_B) (-2)%Z
          (Some guess_k)
    = Some traj_k.
Proof.
  assert (Hreach : reachable (toy_args "deer") toy_state_1).
  { apply (reachable_iteration (toy_args "deer") (main_setup (toy_args "deer"))
             toy_state_1 0 batch_A (reachable_setup _)).
    vm_compute. reflexivity. }
  split; [exact Hreach|].
  destruct (every_solve_starts_from_the_zero_state
              (toy_args "deer") toy_state_1 Hreach) as [Hy0 Hsolves].
  split; [exact Hy0|].
  refine (Hsolves 1 batch_B toy_state_2 0 (fst example_B) _ _).
  - vm_compute. reflexivity.
  - reflexivity.
Defined.

(** The warm-start array created by [main] has one row per batch slot. *)
Lemma warm_start_capacity_is_batch_size {R P M O Raw : Type} `{Scalar R}
  {RT : Runtime R P M O Raw} (args : Args R) :
  length (yinit_guess (main_setup args)) = args_batch_size args.
Proof. simpl. unfold zeros3. apply repeat_length. Qed.

Lemma warm_start_row_passes_to_the_next_batch_witness :
  exists (s1 : Locals Z Z Z nat) y0_0 guess_0 T_A T_B,
    loop_body (toy_cell 2) (toy_dense 3) (toy_adam 1%Z) (toy_data 1)
              (main_setup (toy_args "deer")) 0 ([fst example_A], [snd example_A])
    = Ok s1 /\
    y0 (main_setup (toy_args "deer") : Locals Z Z Z nat) = [y0_0] /\
    yinit_guess (main_setup (toy_args "deer") : Locals Z Z Z nat) = [guess_0] /\
    seq1d (model_func (toy_cell 2)) y0_0 (fst example_A) 2%Z (Some guess_0)
    = Some T_A /\
    yinit_guess s1 = [T_A] /\
    seq1d (model_func (toy_cell 2)) y0_0 (fst example_B)
          (cp_params (combined_params s1)) (Some T_A) = Some T_B /\
    [[[5; 5]; [-3; -3]]]%Z = [T_B].
Proof.
  refine (warm_start_row_passes_to_the_next_batch
           (toy_cell 2) (toy_dense 3) (toy_adam 1%Z) (toy_data 1)
           (main_setup (toy_args "deer"))
           {| combined_params := {| cp_params := 448%Z; cp_mlp_params := 3%Z |};
              opt_state := 2;
              yinit_guess := [[[5; 5]; [-3; -3]]]%Z;
              y0 := [[0; 0]]%Z;
              step := 2;
              summary_writer := [("train_loss", 16%Z, 0); ("train_loss", 270%Z, 1)] |}
           ([fst example_A], [snd example_A]) ([fst example_B], [snd example_B])
           (fst example_A) (fst example_B) [snd example_A] [snd example_B]
           _ _ _).
  - reflexivity.
  - reflexivity.
  - vm_compute. reflexivity.
Defined.

(** On the two-example data set: the second example, which was never
    solved before, is not started from the zero trajectory a fresh cache
    entry holds, but from the first example's trajectory. *)
Lemma second_example_is_warm_started_from_the_first :
  exists s1 : Locals Z Z Z nat,
    loop_body (toy_cell 2) (toy_dense 3) (toy_adam 1%Z) (toy_data 1)
              (main_setup (toy_args "deer")) 0 ([fst example_A], [snd example_A])
    = Ok s1 /\
    yinit_guess s1 = [[[1; 1]; [4; 4]]]%Z /\
    seq1d (model_func (toy_cell 2)) [0; 0]%Z (fst example_A) 2%Z
          (Some (zeros2 2 2)) = Some [[1; 1]; [4; 4]]%Z /\
    toy_main "deer" =
      (s2 <- loop_body (toy_cell 2) (toy_dense 3) (toy_adam 1%Z) (toy_data 1)
                       s1 1 ([fst example_B], [snd example_B]) ;; Ok s2) /\
    [[1; 1]; [4; 4]]%Z <> zeros2 2 2 /\
    length (yinit_guess (main_setup (toy_args "deer") : Locals Z Z Z nat)) = 1 /\
    length (train_dataloader (toy_data 1) 0) = 2.
Proof.
  eexists. split; [vm_compute; reflexivity|].
  split; [reflexivity|]. split; [vm_compute; reflexivity|].
  split; [vm_compute; reflexivity|]. split; [discriminate|].
  split; reflexivity.
Qed.

(** * Further properties of train.py *)

(** ** Outcomes of rollout and of the training step *)

Lemma nth_error_last {A : Type} (l : list A) (d : A) :
  l <> [] -> nth_error l (length l - 1) = Some (last l d).
Proof.
  induction l as [|a l IH]; intros Hne; [contradiction|].
  destruct l as [|b l']; [reflexivity|].
  replace (length (a :: b :: l') - 1) with (S (length (b :: l') - 1))
    by (simpl; lia).
  change (nth_error (b :: l') (length (b :: l') - 1) = Some (last (b :: l') d)).
  apply IH. discriminate.
Qed.

Section OutcomeProperties.
Context {R P M O : Type} `{Scalar R} {L : Lib R P M}.

(** X1: with method ["deer_rnn"], [rollout] has three outcomes, decided by
    the solver alone: the solver's exception is passed on, an empty
    trajectory makes [y[-1, :]] raise [IndexError], and any other
    trajectory is returned together with the readout of its last entry. *)
Theorem rollout_deer_rnn_outcome (model : RNNCell R P) (params : P)
  (mlp : Readout R M) (mlp_params : M) (y0 : Vec R) (inputs : list (Vec R))
  (guess : option (Traj R)) (nclasses : Z) :
  rollout model params mlp mlp_params y0 inputs guess "deer_rnn" nclasses =
  match seq1d (model_func model) y0 inputs params guess with
  | None => Raise (Collaborator "seq1d")
  | Some [] => Raise IndexError
  | Some (r :: T) => Ok (mlp_apply mlp mlp_params (last (r :: T) r), r :: T)
  end.
Proof.
  rewrite rollout_deer_rnn.
  destruct (seq1d (model_func model) y0 inputs params guess) as [[|r T]|];
    try reflexivity.
  cbn [called bind]. unfold index_last.
  rewrite (nth_error_last (r :: T) r) by discriminate. reflexivity.
Qed.

Lemma rollout_batch_mismatch (model : RNNCell R P) (params : P)
  (mlp : Readout R M) (mlp_params : M)
  (y0 : list (Vec R)) (x : list (list (Vec R))) (guesses : list (Traj R)) :
  length x <> length y0 \/ length guesses <> length y0 ->
  rollout_batch model params mlp mlp_params y0 x (Some guesses)
  = Raise ValueError.
Proof.
  intros Hne. unfold rollout_batch, vmap_axes_0_0_0.
  destruct (Nat.eqb_spec (length y0) (length x)) as [Hx | Hx];
    [|reflexivity].
  destruct (Nat.eqb_spec (length guesses) (length y0)) as [Hg | Hg];
    [|reflexivity].
  exfalso. destruct Hne as [Hne | Hne]; [apply Hne; congruence | exact (Hne Hg)].
Qed.

Lemma update_step_Raise (model : RNNCell R P) (mlp : Readout R M)
  (optimizer : GradientTransformation (CombinedParams P M) O)
  (cp : CombinedParams P M) (os : O) (batch : list (list (Vec R)) * list Z)
  (y0 : list (Vec R)) (guesses : list (Traj R)) (method : string) (e : exn) :
  update_step model mlp optimizer cp os batch y0 guesses method = Raise e
  <->
  loss_fn model (cp_params cp) mlp (cp_mlp_params cp) y0 batch (Some guesses)
          method = Raise e.
Proof.
  unfold update_step, value_and_grad.
  destruct (loss_fn model (cp_params cp) mlp (cp_mlp_params cp) y0 batch
                    (Some guesses) method) as [[l [a t]]|e'].
  - cbn [bind]. destruct (opt_update optimizer _ os) as [updates os2].
    split; discriminate.
  - cbn [bind]. split; intros He; injection He as ->; reflexivity.
Qed.

(** X2: the [method] argument of [update_step] and of [loss_fn] has no
    effect: the step computes the same result for every method string, and
    it never raises [NotImplementedError]. *)
Theorem update_step_ignores_method (model : RNNCell R P) (mlp : Readout R M)
  (optimizer : GradientTransformation (CombinedParams P M) O)
  (cp : CombinedParams P M) (os : O) (batch : list (list (Vec R)) * list Z)
  (y0 : list (Vec R)) (guesses : list (Traj R)) (method method' : string) :
  update_step model mlp optimizer cp os batch y0 guesses method
  = update_step model mlp optimizer cp os batch y0 guesses method' /\
  loss_fn model (cp_params cp) mlp (cp_mlp_params cp) y0 batch (Some guesses)
          method
  = loss_fn model (cp_params cp) mlp (cp_mlp_params cp) y0 batch (Some guesses)
            method' /\
  update_step model mlp optimizer cp os batch y0 guesses method
  <> Raise NotImplementedError.
Proof.
  split; [reflexivity|]. split; [reflexivity|].
  intros Hr. apply update_step_Raise in Hr. revert Hr.
  apply loss_fn_not_unimplemented.
Qed.

(** X4: a training step whose batch, initial states and warm-start array
    do not have the same number of rows raises [ValueError]. *)
Theorem update_step_rejects_unequal_batch_axes
  (model : RNNCell R P) (mlp : Readout R M)
  (optimizer : GradientTransformation (CombinedParams P M) O)
  (cp : CombinedParams P M) (os : O) (x : list (list (Vec R)))
  (labels : list Z) (y0 : list (Vec R)) (guesses : list (Traj R))
  (method : string) :
  length x <> length y0 \/ length guesses <> length y0 ->
  update_step model mlp optimizer cp os (x, labels) y0 guesses method
  = Raise ValueError.
Proof.
  intros Hne. apply update_step_Raise. unfold loss_fn.
  rewrite (rollout_batch_mismatch _ _ _ _ _ _ _ Hne). reflexivity.
Qed.

(** X5: a training step that succeeds returns as many trajectories as the
    batch has examples, which is also the number of rows of the initial
    states and of the warm-start array it was given. *)
Theorem update_step_keeps_the_number_of_rows
  (model : RNNCell R P) (mlp : Readout R M)
  (optimizer : GradientTransformation (CombinedParams P M) O)
  (cp : CombinedParams P M) (os : O) (x : list (list (Vec R)))
  (labels : list Z) (y0 : list (Vec R)) (guesses : list (Traj R))
  (method : string) (cp' : CombinedParams P M) (os' : O) (l a : R)
  (trajectories : list (Traj R)) :
  update_step model mlp optimizer cp os (x, labels) y0 guesses method
  = Ok (cp', os', l, a, trajectories) ->
  length trajectories = length x /\
  length trajectories = length guesses /\
  length trajectories = length y0.
Proof.
  intros Hstep. apply update_step_Ok in Hstep. destruct Hstep as [Hloss _].
  apply loss_fn_Ok in Hloss. destruct Hloss as [logits [Hb _]].
  destruct (rollout_batch_lengths _ _ _ _ _ _ _ _ _ Hb) as [Hx [Hg [_ Ht]]].
  repeat split; congruence.
Qed.

End OutcomeProperties.

Lemma update_step_rejects_unequal_batch_axes_witness :
  update_step (toy_cell 2) (toy_dense 3) (toy_adam 1%Z) toy_cp 0
              ([fst example_A], [snd example_A]) toy_y0 toy_guesses "deer_rnn"
  = Raise ValueError.
Proof.
  apply update_step_rejects_unequal_batch_axes.
  left. simpl. lia.
Defined.

Lemma update_step_keeps_the_number_of_rows_witness :
  length [[[1; 1]; [4; 4]]; [[5; 5]; [17; 17]]]%Z = length toy_x /\
  length [[[1; 1]; [4; 4]]; [[5; 5]; [17; 17]]]%Z = length toy_guesses /\
  length [[[1; 1]; [4; 4]]; [[5; 5]; [17; 17]]]%Z = length toy_y0.
Proof.
  apply (update_step_keeps_the_number_of_rows
           (toy_cell 2) (toy_dense 3) (toy_adam 1%Z) toy_cp 0 toy_x toy_labels
           toy_y0 toy_guesses "deer_rnn"
           {| cp_params := (-15)%Z; cp_mlp_params := (-58)%Z |} 1 59%Z 0%Z).
  vm_compute. reflexivity.
Defined.

(** ** The loops of main *)

Section LoopComposition.
Context {R P M O Raw : Type} `{Scalar R} {L : Lib R P M}.

Lemma loop_body_Raise (model : RNNCell R P) (mlp : Readout R M)
  (optimizer : GradientTransformation (CombinedParams P M) O)
  (dm : DataModule R Raw) (s : Locals R P M O) (i : nat) (batch : Raw)
  (e : exn) :
  loop_body model mlp optimizer dm s i batch = Raise e
  <->
  update_step model mlp optimizer (combined_params s) (opt_state s)
              (on_before_batch_transfer dm batch i) (y0 s) (yinit_guess s)
              default_method = Raise e.
Proof.
  unfold loop_body. rewrite prep_batch_id.
  destruct (update_step model mlp optimizer (combined_params s) (opt_state s)
              (on_before_batch_transfer dm batch i) (y0 s) (yinit_guess s)
              default_method) as [[[[[cp' os'] l] a] t]|e'].
  - cbn [bind]. split; discriminate.
  - cbn [bind]. split; intros He; injection He as ->; reflexivity.
Qed.

Lemma loop_body_log (model : RNNCell R P) (mlp : Readout R M)
  (optimizer : GradientTransformation (CombinedParams P M) O)
  (dm : DataModule R Raw) (s s' : Locals R P M O) (i : nat) (batch : Raw) :
  loop_body model mlp optimizer dm s i batch = Ok s' ->
  step s' = step s + 1 /\
  exists l,
    summary_writer s' = (summary_writer s ++ [("train_loss", l, step s)])%list.
Proof.
  intros Hbody. apply loop_body_Ok in Hbody.
  destruct Hbody as [cp' [os' [l [a [t [_ ->]]]]]]. simpl.
  split; [reflexivity|]. exists l. reflexivity.
Qed.

(** X6: batches of one epoch may be processed in two runs: looping over
    [l1 ++ l2] from index [i] is looping over [l1] from [i] and then,
    from the state reached, over [l2] from index [i + len(l1)]; an
    exception in the first part is the exception of the whole. *)
Theorem epoch_loop_over_concatenated_batches
  (model : RNNCell R P) (mlp : Readout R M)
  (optimizer : GradientTransformation (CombinedParams P M) O)
  (dm : DataModule R Raw) (l1 l2 : list Raw) (s : Locals R P M O) (i : nat) :
  epoch_loop model mlp optimizer dm s i (l1 ++ l2) =
  (s' <- epoch_loop model mlp optimizer dm s i l1 ;;
   epoch_loop model mlp optimizer dm s' (i + length l1) l2).
Proof.
  revert s i. induction l1 as [|b l1 IH]; intros s i.
  - simpl. rewrite Nat.add_0_r. reflexivity.
  - simpl. destruct (loop_body model mlp optimizer dm s i b) as [s1|e];
      [|reflexivity].
    cbn [bind]. rewrite IH. rewrite <- Nat.add_succ_comm. reflexivity.
Qed.

(** X7: training for [n1 + n2] epochs is training for [n1] epochs and
    then, from the state reached, for [n2] more epochs numbered from
    [epoch + n1]. *)
Theorem training_loop_over_added_epochs
  (model : RNNCell R P) (mlp : Readout R M)
  (optimizer : GradientTransformation (CombinedParams P M) O)
  (dm : DataModule R Raw) (n1 n2 : nat) (s : Locals R P M O) (epoch : nat) :
  training_loop model mlp optimizer dm s epoch (n1 + n2) =
  (s' <- training_loop model mlp optimizer dm s epoch n1 ;;
   training_loop model mlp optimizer dm s' (epoch + n1) n2).
Proof.
  revert s epoch. induction n1 as [|n1 IH]; intros s epoch.
  - simpl. rewrite Nat.add_0_r. reflexivity.
  - simpl.
    destruct (epoch_loop model mlp optimizer dm s 0 (train_dataloader dm epoch))
      as [s1|e]; [|reflexivity].
    cbn [bind]. rewrite IH. rewrite <- Nat.add_succ_comm. reflexivity.
Qed.

(** X8: the loop over an epoch stops at the first batch whose iteration
    raises: the exception is the result of the epoch, whatever batches
    follow. *)
Theorem epoch_loop_stops_at_first_exception
  (model : RNNCell R P) (mlp : Readout R M)
  (optimizer : GradientTransformation (CombinedParams P M) O)
  (dm : DataModule R Raw) (done : list Raw) (batch : Raw) (rest : list Raw)
  (s s1 : Locals R P M O) (i : nat) (e : exn) :
  epoch_loop model mlp optimizer dm s i done = Ok s1 ->
  loop_body model mlp optimizer dm s1 (i + length done) batch = Raise e ->
  epoch_loop model mlp optimizer dm s i (done ++ batch :: rest) = Raise e.
Proof.
  revert s i. induction done as [|b done IH]; intros s i Hdone Hraise.
  - simpl in Hdone. injection Hdone as ->.
    simpl in *. rewrite Nat.add_0_r in Hraise. rewrite Hraise. reflexivity.
  - simpl in Hdone. apply bind_Ok in Hdone. destruct Hdone as [s' [Hb Hdone]].
    simpl. rewrite Hb. cbn [bind]. apply IH; [exact Hdone|].
    simpl in Hraise. rewrite Nat.add_succ_comm. exact Hraise.
Qed.

Lemma epoch_loop_step (model : RNNCell R P) (mlp : Readout R M)
  (optimizer : GradientTransformation (CombinedParams P M) O)
  (dm : DataModule R Raw) (batches : list Raw) (s s' : Locals R P M O)
  (i : nat) :
  epoch_loop model mlp optimizer dm s i batches = Ok s' ->
  step s' = step s + length batches.
Proof.
  revert s i. induction batches as [|b rest IH]; intros s i Hrun;
    simpl in Hrun.
  - injection Hrun as <-. simpl. lia.
  - apply bind_Ok in Hrun. destruct Hrun as [s1 [Hb Hrun]].
    apply IH in Hrun. destruct (loop_body_log _ _ _ _ _ _ _ _ Hb) as [Hs _].
    simpl. lia.
Qed.

Lemma training_loop_step (model : RNNCell R P) (mlp : Readout R M)
  (optimizer : GradientTransformation (CombinedParams P M) O)
  (dm : DataModule R Raw) (n : nat) (s s' : Locals R P M O) (epoch : nat) :
  training_loop model mlp optimizer dm s epoch n = Ok s' ->
  step s' = step s
            + list_sum (map (fun e => length (train_dataloader dm e))
                            (seq epoch n)).
Proof.
  revert s epoch. induction n as [|n IH]; intros s epoch Hrun; simpl in Hrun.
  - injection Hrun as <-. simpl. lia.
  - apply bind_Ok in Hrun. destruct Hrun as [s1 [He Hrun]].
    apply IH in Hrun. apply epoch_loop_step in He. simpl. lia.
Qed.

(** X9: an iteration logs, under the tag ["train_loss"] and the current
    global step, the mean cross-entropy of the logits computed with the
    parameters it started from, and advances the step by one. *)
Theorem iteration_logs_loss_before_update
  (model : RNNCell R P) (mlp : Readout R M)
  (optimizer : GradientTransformation (CombinedParams P M) O)
  (dm : DataModule R Raw) (s s' : Locals R P M O) (i : nat) (batch : Raw) :
  loop_body model mlp optimizer dm s i batch = Ok s' ->
  exists logits losses,
    rollout_batch model (cp_params (combined_params s)) mlp
                  (cp_mlp_params (combined_params s)) (y0 s)
                  (fst (on_before_batch_transfer dm batch i))
                  (Some (yinit_guess s))
    = Ok (logits, yinit_guess s') /\
    softmax_cross_entropy_with_integer_labels
      logits (snd (on_before_batch_transfer dm batch i)) = Some losses /\
    summary_writer s'
    = (summary_writer s ++ [("train_loss", jnp_mean losses, step s)])%list /\
    step s' = step s + 1.
Proof.
  intros Hbody. apply loop_body_Ok in Hbody.
  destruct Hbody as [cp' [os' [l [a [t [Hu ->]]]]]]. simpl.
  destruct (on_before_batch_transfer dm batch i) as [x labels].
  apply update_step_Ok in Hu. destruct Hu as [Hloss _].
  apply loss_fn_Ok in Hloss. destruct Hloss as [logits [Hb Hm]].
  apply compute_metrics_Ok in Hm.
  destruct Hm as [losses [predicted [hits [Hl [_ [_ Hm]]]]]].
  injection Hm as -> _.
  exists logits, losses. repeat split; assumption.
Qed.

End LoopComposition.

Lemma epoch_loop_stops_at_first_exception_witness :
  epoch_loop (toy_cell 2) (toy_dense 3) (toy_adam 1%Z) (toy_data 1)
             (main_setup (toy_args "deer")) 0
             ([([fst example_A], [snd example_A])]
              ++ (toy_x, toy_labels) :: [([fst example_B], [snd example_B])])
  = Raise ValueError.
Proof.
  refine (epoch_loop_stops_at_first_exception
            (toy_cell 2) (toy_dense 3) (toy_adam 1%Z) (toy_data 1)
            [([fst example_A], [snd example_A])] (toy_x, toy_labels)
            [([fst example_B], [snd example_B])]
            (main_setup (toy_args "deer")) _ 0 ValueError _ _).
  - vm_compute. reflexivity.
  - vm_compute. reflexivity.
Defined.

Lemma iteration_logs_loss_before_update_witness :
  exists logits losses,
    rollout_batch (toy_cell 2) 2%Z (toy_dense 3) 1%Z [[0; 0]]%Z
                  [fst example_A] (Some [[[0; 0]; [0; 0]]]%Z)
    = Ok (logits, [[[1; 1]; [4; 4]]]%Z) /\
    toy_xent logits [snd example_A] = Some losses /\
    [("train_loss", 16%Z, 0)]
    = ([] ++ [("train_loss", jnp_mean losses, 0)])%list /\
    1 = 0 + 1.
Proof.
  exact (iteration_logs_loss_before_update
    (toy_cell 2) (toy_dense 3) (toy_adam 1%Z) (toy_data 1)
    (main_setup (toy_args "deer"))
    {| combined_params := {| cp_params := (-2)%Z; cp_mlp_params := (-15)%Z |};
       opt_state := 1;
       yinit_guess := [[[1; 1]; [4; 4]]]%Z;
       y0 := [[0; 0]]%Z;
       step := 1;
       summary_writer := [("train_loss", 16%Z, 0)] |}
    0 ([fst example_A], [snd example_A]) eq_refl).
Defined.

(** ** The run of main *)

Section RunProperties.
Context {R P M O Raw : Type} `{Scalar R} {L : Lib R P M}
        {RT : Runtime R P M O Raw}.

Lemma reachable_rows (args : Args R) (s : Locals R P M O) :
  reachable args s ->
  length (y0 s) = args_batch_size args /\
  length (yinit_guess s) = args_batch_size args.
Proof.
  induction 1 as [|s s' i batch Hs [IHy IHg] Hbody].
  - simpl. unfold zeros2, zeros3. rewrite !repeat_length. split; reflexivity.
  - destruct (loop_body_forward _ _ _ _ _ _ _ _ Hbody) as [Hy0 [logits Hb]].
    destruct (rollout_batch_lengths _ _ _ _ _ _ _ _ _ Hb) as [_ [_ [_ Ht]]].
    rewrite Hy0. split; congruence.
Qed.

Lemma reachable_log (args : Args R) (s : Locals R P M O) :
  reachable args s ->
  map snd (summary_writer s) = seq 0 (step s) /\
  Forall (fun entry => fst (fst entry) = "train_loss") (summary_writer s).
Proof.
  induction 1 as [|s s' i batch Hs [IHm IHt] Hbody].
  - simpl. split; [reflexivity | constructor].
  - destruct (loop_body_log _ _ _ _ _ _ _ _ Hbody) as [Hstep [l Hlog]].
    rewrite Hlog, Hstep. split.
    + rewrite map_app, IHm, Nat.add_1_r, seq_S. reflexivity.
    + apply Forall_app. split; [exact IHt|]. repeat constructor.
Qed.

(** X10: in every state of the training loop the initial-state array and
    the warm-start array have [batch_size] rows, and the log holds one
    entry per iteration made, all tagged ["train_loss"], whose step
    numbers are 0, 1, 2, ... in order; the step counter runs across
    epochs. *)
Theorem training_loop_invariants (args : Args R) (s : Locals R P M O) :
  reachable args s ->
  length (y0 s) = args_batch_size args /\
  length (yinit_guess s) = args_batch_size args /\
  length (summary_writer s) = step s /\
  map snd (summary_writer s) = seq 0 (step s) /\
  Forall (fun entry => fst (fst entry) = "train_loss") (summary_writer s).
Proof.
  intros Hs. destruct (reachable_rows args s Hs) as [Hy Hg].
  destruct (reachable_log args s Hs) as [Hm Ht].
  repeat split; try assumption.
  rewrite <- (length_map snd), Hm. apply length_seq.
Qed.

(** X11: an iteration on a batch whose number of examples is not
    [batch_size], such as a short last batch, raises [ValueError]: the
    initial-state and warm-start arrays were allocated with [batch_size]
    rows. *)
Theorem batch_of_other_size_raises (args : Args R) (s : Locals R P M O)
  (i : nat) (batch : Raw) :
  reachable args s ->
  length (fst (on_before_batch_transfer
                 (CIFAR10DataModule (args_batch_size args)) batch i))
  <> args_batch_size args ->
  loop_body (GRUCell (args_nstates args)) (MLP (args_nclass args))
            (adam (args_lr args)) (CIFAR10DataModule (args_batch_size args))
            s i batch = Raise ValueError.
Proof.
  intros Hs Hne. destruct (reachable_rows args s Hs) as [Hy _].
  apply loop_body_Raise.
  destruct (on_before_batch_transfer _ batch i) as [x labels].
  simpl in Hne. apply update_step_Raise. unfold loss_fn.
  rewrite rollout_batch_mismatch; [reflexivity|].
  left. congruence.
Qed.

(** X12: when [main] completes, the step counter and the number of log
    entries are the number of batches served over all epochs. *)
Theorem main_counts_every_batch (args : Args R) (s : Locals R P M O) :
  main args = Ok s ->
  step s = list_sum
             (map (fun epoch =>
                     length (train_dataloader
                               (CIFAR10DataModule (args_batch_size args)) epoch))
                  (seq 0 (Z.to_nat (args_nepochs args)))) /\
  length (summary_writer s) = step s.
Proof.
  intros Hmain. split.
  - unfold main in Hmain. apply training_loop_step in Hmain.
    simpl in Hmain. exact Hmain.
  - apply main_reachable in Hmain. apply reachable_log in Hmain.
    destruct Hmain as [Hm _].
    rewrite <- (length_map snd), Hm. apply length_seq.
Qed.

(** X13: a run of [main] with [--nepochs] zero or negative that
    completes has made no iteration: it ends with the initial parameters,
    the all-zero initial states and warm-start array, step 0 and an empty
    log. *)
Theorem main_without_epochs (args : Args R) (s : Locals R P M O) :
  (args_nepochs args <= 0)%Z ->
  main args = Ok s ->
  step s = 0 /\
  summary_writer s = [] /\
  yinit_guess s
  = repeat (repeat (repeat R0 (args_nstates args)) (args_nsequence args))
           (args_batch_size args) /\
  y0 s = repeat (repeat R0 (args_nstates args)) (args_batch_size args) /\
  combined_params s
  = {| cp_params := model_init (GRUCell (args_nstates args)) (args_seed args);
       cp_mlp_params := mlp_init (MLP (args_nclass args)) (args_seed args) |}.
Proof.
  intros Hn Hmain. unfold main in Hmain.
  replace (Z.to_nat (args_nepochs args)) with 0 in Hmain by lia.
  simpl in Hmain. injection Hmain as <-. repeat split.
Qed.

(** X14: the first iteration of a run is a cold start: every example of
    its batch is solved with the initial parameters of the cell, from the
    zero state, with the zero trajectory of shape (nsequence, nstates) as
    its guess. *)
Theorem first_iteration_is_a_cold_start (args : Args R)
  (s' : Locals R P M O) (i : nat) (batch : Raw) (k : nat)
  (x_k : list (Vec R)) :
  loop_body (GRUCell (args_nstates args)) (MLP (args_nclass args))
            (adam (args_lr args)) (CIFAR10DataModule (args_batch_size args))
            (main_setup args) i batch = Ok s' ->
  nth_error (fst (on_before_batch_transfer
                    (CIFAR10DataModule (args_batch_size args)) batch i)) k
  = Some x_k ->
  exists traj_k,
    nth_error (yinit_guess s') k = Some traj_k /\
    seq1d (model_func (GRUCell (args_nstates args)))
          (zeros1 (args_nstates args)) x_k
          (model_init (GRUCell (args_nstates args)) (args_seed args))
          (Some (zeros2 (args_nsequence args) (args_nstates args)))
    = Some traj_k.
Proof.
  intros Hbody Hx.
  destruct (loop_body_solves _ _ _ _ _ _ _ _ k x_k Hbody Hx)
    as [y0_k [guess_k [traj_k [Hy [Hg [Ht Hsolve]]]]]].
  exists traj_k. split; [exact Ht|].
  simpl in Hy, Hg, Hsolve.
  apply nth_error_In in Hy. apply repeat_spec in Hy.
  apply nth_error_In in Hg. apply repeat_spec in Hg.
  subst y0_k guess_k. exact Hsolve.
Qed.

End RunProperties.

Lemma training_loop_invariants_witness :
  reachable (toy_args "deer") toy_state_1 /\
  length (y0 toy_state_1) = 1 /\
  length (yinit_guess toy_state_1) = 1 /\
  length (summary_writer toy_state_1) = step toy_state_1 /\
  map snd (summary_writer toy_state_1) = seq 0 (step toy_state_1) /\
  Forall (fun entry => fst (fst entry) = "train_loss")
         (summary_writer toy_state_1).
Proof.
  assert (Hreach : reachable (toy_args "deer") toy_state_1).
  { apply (reachable_iteration (toy_args "deer") (main_setup (toy_args "deer"))
             toy_state_1 0 batch_A (reachable_setup _)).
    vm_compute. reflexivity. }
  split; [exact Hreach|].
  exact (training_loop_invariants (toy_args "deer") toy_state_1 Hreach).
Defined.

Lemma batch_of_other_size_raises_witness :
  loop_body (toy_cell 2) (toy_dense 3) (toy_adam 1%Z) (toy_data 1)
            (main_setup (toy_args "deer")) 0 (toy_x, toy_labels)
  = Raise ValueError.
Proof.
  refine (batch_of_other_size_raises (toy_args "deer")
            (main_setup (toy_args "deer")) 0 (toy_x, toy_labels)
            (reachable_setup _) _).
  simpl. lia.
Defined.

Lemma main_counts_every_batch_witness :
  main (toy_args "deer") = Ok toy_state_2 /\
  step toy_state_2
  = list_sum (map (fun epoch => length (train_dataloader (toy_data 1) epoch))
                  (seq 0 (Z.to_nat 1))) /\
  length (summary_writer toy_state_2) = step toy_state_2.
Proof.
  assert (Hmain : main (toy_args "deer") = Ok toy_state_2).
  { vm_compute. reflexivity. }
  split; [exact Hmain|].
  exact (main_counts_every_batch (toy_args "deer") toy_state_2 Hmain).
Defined.

Lemma main_without_epochs_witness :
  main toy_args_no_epoch
  = Ok (main_setup toy_args_no_epoch : Locals Z Z Z nat) /\
  step (main_setup toy_args_no_epoch : Locals Z Z Z nat) = 0 /\
  summary_writer (main_setup toy_args_no_epoch : Locals Z Z Z nat) = [] /\
  yinit_guess (main_setup toy_args_no_epoch : Locals Z Z Z nat)
  = [[[0; 0]; [0; 0]]]%Z /\
  y0 (main_setup toy_args_no_epoch : Locals Z Z Z nat) = [[0; 0]]%Z /\
  combined_params (main_setup toy_args_no_epoch : Locals Z Z Z nat)
  = {| cp_params := 2%Z; cp_mlp_params := 1%Z |}.
Proof.
  assert (Hmain : main toy_args_no_epoch
                  = Ok (main_setup toy_args_no_epoch : Locals Z Z Z nat)).
  { vm_compute. reflexivity. }
  split; [exact Hmain|].
  refine (main_without_epochs toy_args_no_epoch _ _ Hmain).
  simpl. lia.
Defined.

Lemma first_iteration_is_a_cold_start_witness :
  exists traj_k,
    nth_error (yinit_guess toy_state_1) 0 = Some traj_k /\
    seq1d (model_func (toy_cell 2)) (zeros1 2) (fst example_A)
          (model_init (toy_cell 2) 0%Z) (Some (zeros2 2 2))
    = Some traj_k.
Proof.
  refine (first_iteration_is_a_cold_start (toy_args "deer") toy_state_1 0
            batch_A 0 (fst example_A) _ _).
  - vm_compute. reflexivity.
  - reflexivity.
Defined.

(** ** Splitting a batch *)

Lemma mapM_app {A B : Type} (f : A -> result B) (l1 l2 : list A) :
  mapM f (l1 ++ l2) =
  (r1 <- mapM f l1 ;; r2 <- mapM f l2 ;; Ok (r1 ++ r2)%list).
Proof.
  induction l1 as [|a l1 IH]; simpl.
  - destruct (mapM f l2); reflexivity.
  - destruct (f a) as [b|e]; [|reflexivity]. cbn [bind]. rewrite IH.
    destruct (mapM f l1) as [r1|e]; [|reflexivity]. cbn [bind].
    destruct (mapM f l2) as [r2|e]; reflexivity.
Qed.

Lemma combine_app_same {A B : Type} (a1 a2 : list A) (b1 b2 : list B) :
  length a1 = length b1 ->
  combine (a1 ++ a2) (b1 ++ b2) = (combine a1 b1 ++ combine a2 b2)%list.
Proof.
  revert b1. induction a1 as [|a a1 IH]; intros b1 Hlen.
  - destruct b1; [reflexivity | discriminate].
  - destruct b1 as [|b b1]; [discriminate|]. simpl.
    rewrite IH; [reflexivity | simpl in Hlen; lia].
Qed.

Lemma split_app_parts {A B : Type} (l1 l2 : list (A * B)) :
  List.split (l1 ++ l2) =
  ((fst (List.split l1) ++ fst (List.split l2))%list,
   (snd (List.split l1) ++ snd (List.split l2))%list).
Proof.
  induction l1 as [|[a b] l1 IH]; simpl.
  - destruct (List.split l2); reflexivity.
  - rewrite IH. destruct (List.split l1), (List.split l2). reflexivity.
Qed.

Section BatchSplitting.
Context {R P M : Type} `{Scalar R} {L : Lib R P M}.

(** X15: the batched rollout of a batch made of two parts, each with its
    own initial states and guesses, is the rollout of the first part
    followed by the rollout of the second, outputs and trajectories
    concatenated; an exception of either part is the exception of the
    whole, the first part's first. *)
Theorem rollout_batch_of_two_parts (model : RNNCell R P) (params : P)
  (mlp : Readout R M) (mlp_params : M)
  (y0_a y0_b : list (Vec R)) (x_a x_b : list (list (Vec R)))
  (guesses_a guesses_b : list (Traj R)) :
  length x_a = length y0_a -> length guesses_a = length y0_a ->
  length x_b = length y0_b -> length guesses_b = length y0_b ->
  rollout_batch model params mlp mlp_params (y0_a ++ y0_b) (x_a ++ x_b)
                (Some (guesses_a ++ guesses_b)%list)
  = (r_a <- rollout_batch model params mlp mlp_params y0_a x_a
                          (Some guesses_a) ;;
     r_b <- rollout_batch model params mlp mlp_params y0_b x_b
                          (Some guesses_b) ;;
     Ok ((fst r_a ++ fst r_b)%list, (snd r_a ++ snd r_b)%list)).
Proof.
  intros Hxa Hga Hxb Hgb. unfold rollout_batch, vmap_axes_0_0_0.
  rewrite !length_app.
  replace (length y0_a + length y0_b =? length x_a + length x_b) with true
    by (symmetry; apply Nat.eqb_eq; lia).
  replace (length guesses_a + length guesses_b =? length y0_a + length y0_b)
    with true by (symmetry; apply Nat.eqb_eq; lia).
  replace (length y0_a =? length x_a) with true
    by (symmetry; apply Nat.eqb_eq; lia).
  replace (length y0_b =? length x_b) with true
    by (symmetry; apply Nat.eqb_eq; lia).
  replace (length guesses_a =? length y0_a) with true
    by (symmetry; apply Nat.eqb_eq; lia).
  replace (length guesses_b =? length y0_b) with true
    by (symmetry; apply Nat.eqb_eq; lia).
  cbn [negb].
  rewrite (combine_app_same y0_a y0_b x_a x_b) by lia.
  rewrite combine_app_same by (rewrite length_combine; lia).
  rewrite mapM_app.
  destruct (mapM _ (combine (combine y0_a x_a) guesses_a)) as [r1|e];
    [|reflexivity].
  cbn [bind].
  destruct (mapM _ (combine (combine y0_b x_b) guesses_b)) as [r2|e];
    [|reflexivity].
  cbn [bind fst snd]. rewrite split_app_parts. reflexivity.
Qed.

End BatchSplitting.

Lemma rollout_batch_of_two_parts_witness :
  rollout_batch (toy_cell 2) 2%Z (toy_dense 3) 1%Z
                ([[0; 0]%Z] ++ [[0; 0]%Z])%list
                ([fst example_A] ++ [fst example_B])%list
                (Some (zeros3 1 2 2 ++ zeros3 1 2 2)%list)
  = (r_a <- rollout_batch (toy_cell 2) 2%Z (toy_dense 3) 1%Z [[0; 0]]%Z
                          [fst example_A] (Some (zeros3 1 2 2)) ;;
     r_b <- rollout_batch (toy_cell 2) 2%Z (toy_dense 3) 1%Z [[0; 0]]%Z
                          [fst example_B] (Some (zeros3 1 2 2)) ;;
     Ok ((fst r_a ++ fst r_b)%list, (snd r_a ++ snd r_b)%list)).
Proof.
  apply rollout_batch_of_two_parts; reflexivity.
Defined.
